(** * mod_pgconn: PostgreSQL connection pooling for httpd

    A shallow embedding of [mod_pgconn.c] / [mod_pgconn.h] and the
    properties of its registry, connection factory and acquire/release
    facade.

    Conventions of the embedding.
    - A C pointer is an [option]: [None] is [NULL].
    - The linked list of <PGconn> containers (chained through [m_next]) is a
      Rocq [list], first container first.  The server configurations live
      in a store, addressed by the virtual hosts that point to them, so
      that hosts which share one configuration see each other's writes.
    - A C string is a [string]; the terminating NUL is not part of it.
    - [int], [long] and [apr_uint32_t] values are [Z] with the wrap-around
      written out where the code can reach it.
    - libpq, libc and the APR resource list are outside the module: their
      functions are parameters acting on an abstract [world]; the calls the
      module makes are recorded, in order, in a call trace. *)

From Stdlib Require Import ZArith List String Ascii Bool Lia DecimalString.
From Stdlib Require Import DecimalPos DecimalZ.
Import ListNotations.

Open Scope string_scope.
Open Scope Z_scope.

(** ** C strings *)

Module CString.

(** [tolower] in the C locale: only 'A'..'Z' are mapped. *)
Definition tolower (c : ascii) : ascii :=
  let n := N_of_ascii c in
  if ((65 <=? n) && (n <=? 90))%N then ascii_of_N (n + 32) else c.

Fixpoint str_tolower (s : string) : string :=
  match s with
  | EmptyString => EmptyString
  | String c r => String (tolower c) (str_tolower r)
  end.

(** [strcmp]: bytes are compared as unsigned char.  POSIX fixes only the sign
    of the result, which is what this model returns (-1, 0 or 1).  A byte of
    a string is never NUL, so a proper prefix compares smaller. *)
Fixpoint strcmp (s1 s2 : string) : Z :=
  match s1, s2 with
  | EmptyString, EmptyString => 0
  | EmptyString, String _ _ => -1
  | String _ _, EmptyString => 1
  | String c1 r1, String c2 r2 =>
      match (N_of_ascii c1 ?= N_of_ascii c2)%N with
      | Eq => strcmp r1 r2
      | Lt => -1
      | Gt => 1
      end
  end.

(** [strcasecmp]: as [strcmp] on the lower-cased bytes. *)
Fixpoint strcasecmp (s1 s2 : string) : Z :=
  match s1, s2 with
  | EmptyString, EmptyString => 0
  | EmptyString, String _ _ => -1
  | String _ _, EmptyString => 1
  | String c1 r1, String c2 r2 =>
      match (N_of_ascii (tolower c1) ?= N_of_ascii (tolower c2))%N with
      | Eq => strcasecmp r1 r2
      | Lt => -1
      | Gt => 1
      end
  end.

Definition strlen (s : string) : Z := Z.of_nat (String.length s).

(** [strrchr s c] for a non-NUL [c]: the suffix of [s] that starts at the
    last occurrence of [c], or [NULL]. *)
Fixpoint strrchr (s : string) (c : ascii) : option string :=
  match s with
  | EmptyString => None
  | String a r =>
      match strrchr r c with
      | Some t => Some t
      | None => if Ascii.eqb a c then Some s else None
      end
  end.

(** [s[0]]: the first byte, NUL for the empty string. *)
Definition first_char (s : string) : ascii :=
  match s with
  | EmptyString => zero
  | String c _ => c
  end.

(** [apr_pstrndup(pool, s, n)]: a copy of at most [n] bytes of [s]. *)
Definition apr_pstrndup (s : string) (n : Z) : string :=
  substring 0 (Z.to_nat n) s.

(** Two names are the same up to case when their lower-cased forms agree. *)
Definition eq_nocase (a b : string) : Prop := str_tolower a = str_tolower b.

End CString.
Import CString.

(** ** Types of [mod_pgconn.h] *)

(** API return codes, with the values the header gives them. *)
Inductive ePGconnStatus : Type :=
| PGCONN_ALREADYACQUIRED
| PGCONN_ACQUIRED
| PGCONN_RELEASED
| PGCONN_UNAVAILABLE
| PGCONN_BAD.

Definition ePGconnStatus_value (s : ePGconnStatus) : Z :=
  match s with
  | PGCONN_ALREADYACQUIRED => 0
  | PGCONN_ACQUIRED => 1
  | PGCONN_RELEASED => 2
  | PGCONN_UNAVAILABLE => 3
  | PGCONN_BAD => 4
  end.

Inductive eCatalogCache : Type := DISABLED | ENABLED | REQUIRED.

(** Handles of objects owned by the libraries: a libpq connection object, an
    APR resource list, an APR memory pool, a stdio stream, an APR hash. *)
Definition PGconn : Type := nat.
Definition apr_reslist_t : Type := nat.
Definition apr_pool_t : Type := nat.
Definition FILE : Type := nat.
Definition apr_hash_t : Type := nat.

(** [PGconn*]. *)
Definition PGconnPtr : Type := option PGconn.

(** [PGconn**]: [None] is a NULL pointer, [Some p] points to a cell that
    holds [p].  A function that writes through the pointer returns the new
    content of the cell in the same shape. *)
Definition PGconnSlot : Type := option PGconnPtr.

(** [tPGconnContainer]; [m_next] is the tail of the list the container is in. *)
Record tPGconnContainer : Type := mkContainer {
  m_PGconnPool : option apr_reslist_t;
  m_name : string;
  m_connInfo : string;
  m_poolMin : Z;
  m_poolMaxSoft : Z;
  m_poolMaxHard : Z;
  m_poolTTL : Z;
  m_traceDir : option string;
  m_catalogCache : eCatalogCache;
  m_catalog : option apr_hash_t
}.

Record tPGconnServerConfig : Type := mkServerConfig {
  m_first_PGconnContainer : list tPGconnContainer
}.

Record tPGconnDirConfig : Type := mkDirConfig {
  m_defaultPGconnContainer : option tPGconnContainer
}.

(** ** Registry lookup *)

(** The [for] loop of [getPGconnContainerByName]. *)
Fixpoint getPGconnContainerByName_loop
    (t_PGconnContainer : list tPGconnContainer) (v_connectionName : string)
    : option tPGconnContainer :=
  match t_PGconnContainer with
  | [] => None
  | c :: m_next =>
      if strcasecmp (m_name c) v_connectionName =? 0 then Some c
      else getPGconnContainerByName_loop m_next v_connectionName
  end.

Definition getPGconnContainerByName
    (v_PGconnServerConfig : option tPGconnServerConfig)
    (v_connectionName : option string) : option tPGconnContainer :=
  match v_PGconnServerConfig, v_connectionName with
  | Some cfg, Some name =>
      getPGconnContainerByName_loop (m_first_PGconnContainer cfg) name
  | _, _ => None
  end.

Definition PGconn_serverConfig_create : tPGconnServerConfig :=
  mkServerConfig [].

Definition PGconn_dirConfig_create : tPGconnDirConfig :=
  mkDirConfig None.

(** ** The libraries around the module *)

Definition apr_status_t : Type := Z.
Definition APR_SUCCESS : apr_status_t := 0.
Definition APR_EGENERAL : apr_status_t := 20014.

(** [PQstatus] of a connection made with [PQconnectdb]; the other values of
    libpq's [ConnStatusType] occur only during a non-blocking connect. *)
Inductive ConnStatusType : Type := CONNECTION_OK | CONNECTION_BAD.

Definition is_CONNECTION_OK (s : ConnStatusType) : bool :=
  match s with
  | CONNECTION_OK => true
  | CONNECTION_BAD => false
  end.

(** The function pointers the module hands to APR. *)
Inductive apr_reslist_constructor : Type :=
| Fn_openPGconn
| Fn_openPGconn_tracing.

Inductive apr_reslist_destructor : Type :=
| Fn_closePGconn
| Fn_closePGconn_tracing.

Inductive cleanup : Type :=
| Cleanup_fclose (f : FILE)
| Cleanup_apr_reslist_destroy (r : apr_reslist_t).

(** libpq, libc and the httpd/APR services the connection factory uses.
    [world] is everything outside the module: the backend, the file system,
    the state of the libraries. *)
Class Libs : Type := {
  world : Type;
  lib_PQconnectdb : string -> world -> PGconnPtr * world;
  lib_PQstatus : PGconnPtr -> world -> ConnStatusType;
  lib_PQerrorMessage : PGconnPtr -> world -> string;
  lib_PQbackendPID : PGconnPtr -> world -> Z;
  lib_PQreset : PGconnPtr -> world -> world;
  lib_PQfinish : PGconnPtr -> world -> world;
  lib_PQtrace : PGconnPtr -> FILE -> world -> world;
  lib_PQuntrace : PGconnPtr -> world -> world;
  lib_getpid : world -> Z;
  lib_fopen : string -> string -> world -> option FILE * world;
  lib_apr_pool_cleanup_register :
    option apr_pool_t -> cleanup -> world -> world;
  lib_ap_log_error : string -> world -> world
}.

(** The APR resource list (the pooling engine).  [apr_reslist_create] stores
    the new handle through its first argument when it reports
    [APR_SUCCESS] and leaves it alone otherwise; [apr_reslist_acquire]
    reports a status together with what it left in the caller's cell, or
    does not return at all ([None]): the module sets no timeout, so at the
    hard maximum with nothing idle the call waits for a release without
    limit; [apr_reslist_acquired_count] returns an [apr_uint32_t]. *)
Class ResList (L : Libs) : Type := {
  lib_apr_reslist_create :
    Z -> Z -> Z -> Z -> apr_reslist_constructor -> apr_reslist_destructor ->
    tPGconnContainer -> option apr_pool_t ->
    world -> (apr_status_t * apr_reslist_t) * world;
  lib_apr_reslist_acquire :
    apr_reslist_t -> world -> option ((apr_status_t * PGconnPtr) * world);
  lib_apr_reslist_release :
    apr_reslist_t -> PGconnPtr -> world -> apr_status_t * world;
  lib_apr_reslist_acquired_count : apr_reslist_t -> world -> Z
}.

(** The calls into the libraries that change the world, as the module
    issues them. *)
Inductive call : Type :=
| Call_PQconnectdb (conninfo : string)
| Call_PQreset (conn : PGconnPtr)
| Call_PQfinish (conn : PGconnPtr)
| Call_PQtrace (conn : PGconnPtr) (f : FILE)
| Call_PQuntrace (conn : PGconnPtr)
| Call_fopen (path mode : string)
| Call_apr_pool_cleanup_register (pool : option apr_pool_t) (c : cleanup)
| Call_ap_log_error (msg : string)
| Call_apr_reslist_create (min smax hmax ttl : Z)
    (con : apr_reslist_constructor) (de : apr_reslist_destructor)
    (params : tPGconnContainer) (pool : option apr_pool_t)
| Call_apr_reslist_acquire (r : apr_reslist_t)
| Call_apr_reslist_release (r : apr_reslist_t) (conn : PGconnPtr).

(** ** The monad of the module's code

    A computation runs on a [machine] (the world and the trace of calls made
    so far) and either returns a value and the new machine, or has no
    outcome ([None]): either the C behaviour is undefined there (a NULL
    handle dereferenced inside APR, an integer division by zero) and the
    process is killed, or a library call does not return. *)

Record machine {L : Libs} : Type := mkMachine {
  ext : world;
  calls : list call
}.
Arguments mkMachine {L} ext calls.

Definition M {L : Libs} (A : Type) : Type := machine -> option (A * machine).

Definition ret {L : Libs} {A : Type} (a : A) : M A := fun m => Some (a, m).

Definition bind {L : Libs} {A B : Type} (c : M A) (k : A -> M B) : M B :=
  fun m =>
    match c m with
    | Some (a, m') => k a m'
    | None => None
    end.

Definition fault {L : Libs} {A : Type} : M A := fun _ => None.

(** A call that changes the world: it is appended to the trace. *)
Definition effect {L : Libs} {A : Type} (ev : call) (f : world -> A * world)
    : M A :=
  fun m =>
    let (a, w) := f (ext m) in
    Some (a, mkMachine w (calls m ++ [ev])).

(** A call that changes the world if it returns at all. *)
Definition waiting {L : Libs} {A : Type} (ev : call)
    (f : world -> option (A * world)) : M A :=
  fun m =>
    match f (ext m) with
    | Some (a, w) => Some (a, mkMachine w (calls m ++ [ev]))
    | None => None
    end.

(** A call that only reads the world. *)
Definition query {L : Libs} {A : Type} (f : world -> A) : M A :=
  fun m => Some (f (ext m), m).

Declare Scope pg_scope.
Delimit Scope pg_scope with pg.
Notation "x <- c ;; k" := (bind c (fun x => k))
  (at level 61, c at next level, right associativity) : pg_scope.
Notation "c ;; k" := (bind c (fun _ => k))
  (at level 61, right associativity) : pg_scope.
Notation "' pat <- c ;; k" := (bind c (fun x => match x with pat => k end))
  (at level 61, pat pattern, c at next level, right associativity) : pg_scope.
Open Scope pg_scope.

Section LibraryCalls.
Context {L : Libs}.

Definition PQconnectdb (conninfo : string) : M PGconnPtr :=
  effect (Call_PQconnectdb conninfo) (lib_PQconnectdb conninfo).

Definition PQstatus (conn : PGconnPtr) : M ConnStatusType :=
  query (lib_PQstatus conn).

Definition PQerrorMessage (conn : PGconnPtr) : M string :=
  query (lib_PQerrorMessage conn).

Definition PQbackendPID (conn : PGconnPtr) : M Z :=
  query (lib_PQbackendPID conn).

Definition PQreset (conn : PGconnPtr) : M unit :=
  effect (Call_PQreset conn) (fun w => (tt, lib_PQreset conn w)).

Definition PQfinish (conn : PGconnPtr) : M unit :=
  effect (Call_PQfinish conn) (fun w => (tt, lib_PQfinish conn w)).

Definition PQtrace (conn : PGconnPtr) (f : FILE) : M unit :=
  effect (Call_PQtrace conn f) (fun w => (tt, lib_PQtrace conn f w)).

Definition PQuntrace (conn : PGconnPtr) : M unit :=
  effect (Call_PQuntrace conn) (fun w => (tt, lib_PQuntrace conn w)).

Definition getpid : M Z := query lib_getpid.

Definition fopen (path mode : string) : M (option FILE) :=
  effect (Call_fopen path mode) (lib_fopen path mode).

Definition apr_pool_cleanup_register (pool : option apr_pool_t) (c : cleanup)
    : M unit :=
  effect (Call_apr_pool_cleanup_register pool c)
         (fun w => (tt, lib_apr_pool_cleanup_register pool c w)).

Definition ap_log_error (msg : string) : M unit :=
  effect (Call_ap_log_error msg) (fun w => (tt, lib_ap_log_error msg w)).

Context {R : ResList L}.

Definition apr_reslist_create (min smax hmax ttl : Z)
    (con : apr_reslist_constructor) (de : apr_reslist_destructor)
    (params : tPGconnContainer) (pool : option apr_pool_t)
    : M (apr_status_t * apr_reslist_t) :=
  effect (Call_apr_reslist_create min smax hmax ttl con de params pool)
         (lib_apr_reslist_create min smax hmax ttl con de params pool).

(** The three calls below dereference the list handle: a NULL handle is
    undefined behaviour. *)
Definition apr_reslist_acquire (reslist : option apr_reslist_t)
    : M (apr_status_t * PGconnPtr) :=
  match reslist with
  | Some r => waiting (Call_apr_reslist_acquire r) (lib_apr_reslist_acquire r)
  | None => fault
  end.

Definition apr_reslist_release (reslist : option apr_reslist_t)
    (resource : PGconnPtr) : M apr_status_t :=
  match reslist with
  | Some r =>
      effect (Call_apr_reslist_release r resource)
             (lib_apr_reslist_release r resource)
  | None => fault
  end.

Definition apr_reslist_acquired_count (reslist : option apr_reslist_t)
    : M Z :=
  match reslist with
  | Some r => query (lib_apr_reslist_acquired_count r)
  | None => fault
  end.
End LibraryCalls.

(** ** Machine integers *)

(** Conversion to [unsigned int] / [apr_uint32_t] and back to [int]. *)
Definition uint32 (z : Z) : Z := z mod 2 ^ 32.
Definition int32 (z : Z) : Z := (z + 2 ^ 31) mod 2 ^ 32 - 2 ^ 31.

(** ["%d"] of [apr_psprintf]. *)
Definition format_d (z : Z) : string := NilZero.string_of_int (Z.to_int z).

(** ["%s"] of [apr_psprintf]. *)
Definition format_s (s : option string) : string :=
  match s with
  | Some t => t
  | None => "(null)"
  end.

(** ** Connection factory *)

Section Factory.
Context {L : Libs}.

Definition openPGconn (v_PGconn : PGconnSlot)
    (v_PGconnContainer : option tPGconnContainer)
    (v_pool_unused : option apr_pool_t) : M (apr_status_t * PGconnSlot) :=
  match v_PGconn, v_PGconnContainer with
  | Some _, Some c =>
      (* *v_PGconn = NULL *)
      t_PGconn <- PQconnectdb (m_connInfo c) ;;
      match t_PGconn with
      | None => ret (APR_EGENERAL, Some None)
      | Some _ =>
          st <- PQstatus t_PGconn ;;
          if is_CONNECTION_OK st then ret (APR_SUCCESS, Some t_PGconn)
          else
            msg <- PQerrorMessage t_PGconn ;;
            ap_log_error ("PQconnectdb() error: " ++ msg) ;;
            PQfinish t_PGconn ;;
            ret (APR_EGENERAL, Some None)
      end
  | _, _ => ret (APR_EGENERAL, v_PGconn)
  end.

Definition openPGconn_tracing (v_PGconn : PGconnSlot)
    (v_PGconnContainer : option tPGconnContainer)
    (v_pool : option apr_pool_t) : M (apr_status_t * PGconnSlot) :=
  match v_PGconn, v_PGconnContainer, v_pool with
  | Some _, Some d_PGconnContainer, Some _ =>
      (* *v_PGconn = NULL *)
      t_PGconn <- PQconnectdb (m_connInfo d_PGconnContainer) ;;
      match t_PGconn with
      | None => ret (APR_EGENERAL, Some None)
      | Some _ =>
          st <- PQstatus t_PGconn ;;
          if is_CONNECTION_OK st then
            pid <- getpid ;;
            backend <- PQbackendPID t_PGconn ;;
            t_traceFile <-
              fopen (format_s (m_traceDir d_PGconnContainer) ++ "/"
                       ++ format_d pid ++ "_" ++ format_d backend ++ ".trc")
                    "w" ;;
            match t_traceFile with
            | None =>
                PQfinish t_PGconn ;;
                ret (APR_EGENERAL, Some None)
            | Some f =>
                apr_pool_cleanup_register v_pool (Cleanup_fclose f) ;;
                PQtrace t_PGconn f ;;
                ret (APR_SUCCESS, Some t_PGconn)
            end
          else
            msg <- PQerrorMessage t_PGconn ;;
            ap_log_error ("PQconnectdb() error: " ++ msg) ;;
            PQfinish t_PGconn ;;
            ret (APR_EGENERAL, Some None)
      end
  | _, _, _ => ret (APR_EGENERAL, v_PGconn)
  end.

Definition closePGconn (v_PGconn : PGconnPtr)
    (v_PGconnContainer_unused : option tPGconnContainer)
    (v_pool_unused : option apr_pool_t) : M apr_status_t :=
  match v_PGconn with
  | None => ret APR_EGENERAL
  | Some _ =>
      PQfinish v_PGconn ;;
      ret APR_SUCCESS
  end.

Definition closePGconn_tracing (v_PGconn : PGconnPtr)
    (v_PGconnContainer_unused : option tPGconnContainer)
    (v_pool_unused : option apr_pool_t) : M apr_status_t :=
  match v_PGconn with
  | None => ret APR_EGENERAL
  | Some _ =>
      PQuntrace v_PGconn ;;
      PQfinish v_PGconn ;;
      ret APR_SUCCESS
  end.

(** Calling through the function pointers. *)
Definition call_constructor (con : apr_reslist_constructor) :=
  match con with
  | Fn_openPGconn => openPGconn
  | Fn_openPGconn_tracing => openPGconn_tracing
  end.

Definition call_destructor (de : apr_reslist_destructor) :=
  match de with
  | Fn_closePGconn => closePGconn
  | Fn_closePGconn_tracing => closePGconn_tracing
  end.
End Factory.

(** ** Acquire / release facade *)

Section Facade.
Context {L : Libs} {R : ResList L}.

Definition acquirePGconn (v_PGconnContainer : option tPGconnContainer)
    (v_PGconn : PGconnSlot) : M (ePGconnStatus * PGconnSlot) :=
  match v_PGconnContainer, v_PGconn with
  | Some c, Some (Some _) => ret (PGCONN_ALREADYACQUIRED, v_PGconn)
  | Some c, Some None =>
      match m_PGconnPool c with
      | None => ret (PGCONN_UNAVAILABLE, v_PGconn)
      | Some _ =>
          '(t_status, conn) <- apr_reslist_acquire (m_PGconnPool c) ;;
          if t_status =? APR_SUCCESS then
            st <- PQstatus conn ;;
            if is_CONNECTION_OK st then ret (PGCONN_ACQUIRED, Some conn)
            else
              PQreset conn ;;
              st' <- PQstatus conn ;;
              if is_CONNECTION_OK st' then ret (PGCONN_ACQUIRED, Some conn)
              else
                apr_reslist_release (m_PGconnPool c) conn ;;
                (* *v_PGconn = NULL *)
                ret (PGCONN_BAD, Some None)
          else ret (PGCONN_UNAVAILABLE, Some conn)
      end
  | _, _ => ret (PGCONN_BAD, v_PGconn)
  end.

Definition releasePGconn (v_PGconnContainer : option tPGconnContainer)
    (v_PGconn : PGconnSlot) : M (ePGconnStatus * PGconnSlot) :=
  match v_PGconnContainer, v_PGconn with
  | Some c, Some (Some conn) =>
      st <- apr_reslist_release (m_PGconnPool c) (Some conn) ;;
      if st =? APR_SUCCESS then ret (PGCONN_RELEASED, Some None)
      else ret (PGCONN_BAD, v_PGconn)
  | _, _ => ret (PGCONN_BAD, v_PGconn)
  end.

(** [m_poolMaxHard] is an [int] and the acquired count an [apr_uint32_t]:
    the subtraction, the multiplication and the division are done in
    [unsigned int], and the quotient is converted to the [int] result. *)
Definition measurePGconnAvailability
    (v_PGconnContainer : option tPGconnContainer) : M Z :=
  match v_PGconnContainer with
  | None => ret 0
  | Some c =>
      count <- apr_reslist_acquired_count (m_PGconnPool c) ;;
      let hard := uint32 (m_poolMaxHard c) in
      if hard =? 0 then fault
      else ret (int32 (uint32 (uint32 (hard - count) * 100) / hard))
  end.
End Facade.

(** ** Process start: the resource lists of the containers *)

Definition set_PGconnPool (c : tPGconnContainer) (p : option apr_reslist_t)
    : tPGconnContainer :=
  mkContainer p (m_name c) (m_connInfo c) (m_poolMin c) (m_poolMaxSoft c)
              (m_poolMaxHard c) (m_poolTTL c) (m_traceDir c)
              (m_catalogCache c) (m_catalog c).

(** Writing through the address of a stored object. *)
Fixpoint update_nth {A : Type} (n : nat) (x : A) (l : list A) : list A :=
  match l, n with
  | [], _ => []
  | _ :: r, O => x :: r
  | a :: r, S n' => a :: update_nth n' x r
  end.

Section ChildInit.
Context {L : Libs} {R : ResList L}.

(** The body of the inner loop of [PGconn_childInit] for one container. *)
Definition PGconn_childInit_container (v_pool : option apr_pool_t)
    (c : tPGconnContainer) : M tPGconnContainer :=
  if m_poolMaxHard c >=? 1 then
    '(t_status, rl) <-
      apr_reslist_create (m_poolMin c) (m_poolMaxSoft c) (m_poolMaxHard c)
        (m_poolTTL c)
        (match m_traceDir c with
         | Some _ => Fn_openPGconn_tracing
         | None => Fn_openPGconn
         end)
        (match m_traceDir c with
         | Some _ => Fn_closePGconn_tracing
         | None => Fn_closePGconn
         end)
        c v_pool ;;
    if t_status =? APR_SUCCESS then
      apr_pool_cleanup_register v_pool (Cleanup_apr_reslist_destroy rl) ;;
      ret (set_PGconnPool c (Some rl))
    else
      ap_log_error "Failed to create PGconn* resource list!" ;;
      ret c
  else ret c.

(** The inner loop: the containers of one virtual host. *)
Fixpoint PGconn_childInit_containers (v_pool : option apr_pool_t)
    (t_PGconnContainer : list tPGconnContainer)
    : M (list tPGconnContainer) :=
  match t_PGconnContainer with
  | [] => ret []
  | c :: m_next =>
      c' <- PGconn_childInit_container v_pool c ;;
      rest <- PGconn_childInit_containers v_pool m_next ;;
      ret (c' :: rest)
  end.

(** The outer loop.  [v_server] is the chain of virtual hosts, each given
    by what [ap_get_module_config] returns for it: NULL, or the address of
    a server configuration in the store.  The code dereferences it without
    a check, and writes the new lists into the containers in place: a
    configuration that several hosts point to is walked once per host,
    each time as the earlier walks left it.  The result is the store
    after the last host. *)
Fixpoint PGconn_childInit (v_pool : option apr_pool_t)
    (v_server : list (option nat)) (store : list tPGconnServerConfig)
    : M (list tPGconnServerConfig) :=
  match v_server with
  | [] => ret store
  | None :: _ => fault
  | Some address :: next =>
      match nth_error store address with
      | None => fault
      | Some t_PGconnServerConfig =>
          l <- PGconn_childInit_containers v_pool
                 (m_first_PGconnContainer t_PGconnServerConfig) ;;
          PGconn_childInit v_pool next
            (update_nth address (mkServerConfig l) store)
      end
  end.
End ChildInit.

(** ** Configuration commands *)

Record ap_directive_t : Type := mkDirective {
  directive : string;
  args : string
}.

(** What [PGconn_containerCommand] reads from its [cmd_parms]: the module
    configuration of the server, the directives inside the container, and
    whether [apr_pcalloc] on the configuration pool yields NULL. *)
Record cmd_parms : Type := mkCmdParms {
  server_module_config : option tPGconnServerConfig;
  first_child : list ap_directive_t;
  pool_exhausted : bool
}.

(** The parsing helpers of libc, APR and httpd, and the optional function
    [getAllFunctionDetails] of mod_pgproc.  The number parsers return the
    value and the unparsed rest their end pointer is left at;
    [ap_getword_conf] returns the word and the rest of the line;
    [ap_server_root_relative] returns NULL for a path it cannot merge. *)
Class ConfigLib : Type := {
  ap_getword_conf : string -> string * string;
  strtol : string -> Z * string;
  apr_strtoi64 : string -> Z * string;
  ap_server_root_relative : string -> option string;
  getAllFunctionDetails :
    option (tPGconnContainer -> option string * tPGconnContainer)
}.

Definition dquote : string := String "034"%char EmptyString.

Definition DECLINE_CMD : string :=
  String "007"%char (String "008"%char EmptyString).

Definition is_empty (s : string) : bool :=
  match s with
  | EmptyString => true
  | String _ _ => false
  end.

Section Configuration.
Context {C : ConfigLib}.

(** The container as [apr_pcalloc] and the assignments before the
    directive loop leave it. *)
Definition new_container (v_args : string) : tPGconnContainer :=
  mkContainer None (apr_pstrndup v_args (strlen v_args - 1)) EmptyString
              0 0 1 0 None DISABLED None.

(** The loop that looks for the end of the list: [true] when a container
    with [strcmp(m_name, v_args) == 0] is met on the way. *)
Fixpoint find_end (l : list tPGconnContainer) (v_args : string) : bool :=
  match l with
  | [] => false
  | c :: m_next =>
      if strcmp (m_name c) v_args =? 0 then true
      else find_end m_next v_args
  end.

Definition set_connInfo (c : tPGconnContainer) (v : string) :=
  mkContainer (m_PGconnPool c) (m_name c) v (m_poolMin c) (m_poolMaxSoft c)
              (m_poolMaxHard c) (m_poolTTL c) (m_traceDir c)
              (m_catalogCache c) (m_catalog c).
Definition set_poolMin (c : tPGconnContainer) (v : Z) :=
  mkContainer (m_PGconnPool c) (m_name c) (m_connInfo c) v (m_poolMaxSoft c)
              (m_poolMaxHard c) (m_poolTTL c) (m_traceDir c)
              (m_catalogCache c) (m_catalog c).
Definition set_poolMaxSoft (c : tPGconnContainer) (v : Z) :=
  mkContainer (m_PGconnPool c) (m_name c) (m_connInfo c) (m_poolMin c) v
              (m_poolMaxHard c) (m_poolTTL c) (m_traceDir c)
              (m_catalogCache c) (m_catalog c).
Definition set_poolMaxHard (c : tPGconnContainer) (v : Z) :=
  mkContainer (m_PGconnPool c) (m_name c) (m_connInfo c) (m_poolMin c)
              (m_poolMaxSoft c) v (m_poolTTL c) (m_traceDir c)
              (m_catalogCache c) (m_catalog c).
Definition set_poolTTL (c : tPGconnContainer) (v : Z) :=
  mkContainer (m_PGconnPool c) (m_name c) (m_connInfo c) (m_poolMin c)
              (m_poolMaxSoft c) (m_poolMaxHard c) v (m_traceDir c)
              (m_catalogCache c) (m_catalog c).
Definition set_traceDir (c : tPGconnContainer) (v : option string) :=
  mkContainer (m_PGconnPool c) (m_name c) (m_connInfo c) (m_poolMin c)
              (m_poolMaxSoft c) (m_poolMaxHard c) (m_poolTTL c) v
              (m_catalogCache c) (m_catalog c).
Definition set_catalogCache (c : tPGconnContainer) (v : eCatalogCache) :=
  mkContainer (m_PGconnPool c) (m_name c) (m_connInfo c) (m_poolMin c)
              (m_poolMaxSoft c) (m_poolMaxHard c) (m_poolTTL c)
              (m_traceDir c) v (m_catalog c).

(** The loop over the directives of the container.  It carries the
    container being filled in and [t_endPtr]; it ends with the error
    message returned from inside the loop, if any, and the container as
    the assignments made so far leave it. *)
Fixpoint parse_directives (t_directive : list ap_directive_t)
    (c : tPGconnContainer) (t_endPtr : string)
    : option string * tPGconnContainer :=
  match t_directive with
  | [] => (None, c)
  | d :: next =>
      let t_args := args d in
      let check (c' : tPGconnContainer) (t_endPtr' : string) :=
        if is_empty t_endPtr' then parse_directives next c' t_endPtr'
        else (Some ("Invalid value specified for '" ++ directive d ++ "'"),
              c') in
      if strcasecmp (directive d) "ConnInfo" =? 0 then
        let (word, rest) := ap_getword_conf t_args in
        let c' := set_connInfo c word in
        if negb (is_empty rest) then
          (Some "ConnInfo: Too many arguments", c')
        else if negb (strlen word =? 0) then
          parse_directives next c' t_endPtr
        else (Some "ConnInfo: Too few arguments", c')
      else if strcasecmp (directive d) "PoolMin" =? 0 then
        let (v, e) := strtol (args d) in
        check (set_poolMin c (int32 v)) e
      else if strcasecmp (directive d) "PoolMaxSoft" =? 0 then
        let (v, e) := strtol (args d) in
        check (set_poolMaxSoft c (int32 v)) e
      else if strcasecmp (directive d) "PoolMaxHard" =? 0 then
        let (v, e) := strtol (args d) in
        check (set_poolMaxHard c (int32 v)) e
      else if strcasecmp (directive d) "PoolTTL" =? 0 then
        let (v, e) := apr_strtoi64 (args d) in
        check (set_poolTTL c v) e
      else if strcasecmp (directive d) "TraceDir" =? 0 then
        let (word, rest) := ap_getword_conf t_args in
        let c' := set_traceDir c (Some word) in
        if negb (is_empty rest) then
          (Some "TraceDir: Too many arguments", c')
        else if negb (strlen word =? 0) then
          parse_directives next
            (set_traceDir c' (ap_server_root_relative word))
            t_endPtr
        else (Some "TraceDir: Too few arguments", c')
      else if strcasecmp (directive d) "CatalogCache" =? 0 then
        if strcasecmp t_args "disabled" =? 0 then
          check (set_catalogCache c DISABLED) t_endPtr
        else if strcasecmp t_args "enabled" =? 0 then
          check (set_catalogCache c ENABLED) t_endPtr
        else if strcasecmp t_args "required" =? 0 then
          check (set_catalogCache c REQUIRED) t_endPtr
        else check c t_endPtr
      else (Some ("'" ++ directive d ++ "' not recognized"), c)
  end.

(** The call of mod_pgproc after the loop. *)
Definition cache_catalog (c : tPGconnContainer)
    : option string * tPGconnContainer :=
  match m_catalogCache c with
  | DISABLED => (None, c)
  | _ =>
      match getAllFunctionDetails with
      | None =>
          (Some (dquote ++ "CatalogCache enabled/required" ++ dquote
                   ++ " requires mod_pgproc!"), c)
      | Some f => f c
      end
  end.

(** [PGconn_containerCommand]: the error message (NULL when the directive
    is accepted) and the server configuration the call leaves behind.
    The new container is linked into the list before its directives are
    parsed, so it stays there when parsing ends with an error. *)
Definition PGconn_containerCommand (v_cmdParms : cmd_parms)
    (v_args : string) : option string * option tPGconnServerConfig :=
  let unchanged := server_module_config v_cmdParms in
  if Ascii.eqb (first_char v_args) ">"%char then
    (Some "Missing Connection Name", unchanged)
  else
    match strrchr v_args ">"%char with
    | None => (Some ("Missing " ++ dquote ++ ">" ++ dquote), unchanged)
    | Some _ =>
        match server_module_config v_cmdParms with
        | None => (Some "ap_get_module_config() failed", unchanged)
        | Some t_PGconnServerConfig =>
            let l := m_first_PGconnContainer t_PGconnServerConfig in
            if find_end l v_args then
              (Some "Duplicate Connection Name", unchanged)
            else if pool_exhausted v_cmdParms then
              (Some "Not enough memory", unchanged)
            else
              let (err, c) :=
                parse_directives (first_child v_cmdParms)
                                 (new_container v_args) EmptyString in
              match err with
              | Some msg => (Some msg, Some (mkServerConfig (l ++ [c])))
              | None =>
                  let (err', c') := cache_catalog c in
                  (err', Some (mkServerConfig (l ++ [c'])))
              end
        end
    end.

(** [PGconn_command]: the error message and the per-directory
    configuration after the call. *)
Definition PGconn_command
    (t_PGconnServerConfig : option tPGconnServerConfig)
    (v_PGconnDirConfig : tPGconnDirConfig)
    (v_PGconnName : option string) (v_moduleName : option string)
    : option string * tPGconnDirConfig :=
  match v_moduleName with
  | Some _ => (Some DECLINE_CMD, v_PGconnDirConfig)
  | None =>
      match getPGconnContainerByName t_PGconnServerConfig v_PGconnName with
      | Some t_PGconnContainer =>
          (None, mkDirConfig (Some t_PGconnContainer))
      | None => (Some "Invalid Connection Name", v_PGconnDirConfig)
      end
  end.
End Configuration.

(** ** A reference platform

    An executable instance of the library interfaces, used to run the
    module's code on concrete states: a backend that is up or down, and a
    sequential model of the APR resource list (most recently released
    resource handed out first; resources built with the constructor the
    list was created with; the maintenance pass that refills the idle list
    up to the minimum, and reports it when the constructor fails, run at
    creation and after every release).  Lists are modelled without a
    time-to-live, so idle resources are not expired.  The model is
    sequential: an acquire at the hard maximum with nothing idle waits for
    a release that nobody makes, and does not return. *)

Module Sim.

Definition APR_EINVAL : apr_status_t := 22.

Record reslist_state : Type := mkResList {
  rl_min : Z;
  rl_smax : Z;
  rl_hmax : Z;
  rl_constructor : apr_reslist_constructor;
  rl_destructor : apr_reslist_destructor;
  rl_params : tPGconnContainer;
  rl_pool : option apr_pool_t;
  rl_ntotal : Z;
  rl_idle : list PGconnPtr
}.

Record state : Type := mkState {
  backend_up : bool;
  trace_dir_writable : bool;
  next_handle : nat;
  connections : list (PGconn * ConnStatusType);
  reslists : list reslist_state;
  error_log : list string
}.

Definition with_connections (w : state) (next : nat)
    (l : list (PGconn * ConnStatusType)) : state :=
  mkState (backend_up w) (trace_dir_writable w) next l (reslists w)
          (error_log w).

Definition with_reslists (w : state) (l : list reslist_state) : state :=
  mkState (backend_up w) (trace_dir_writable w) (next_handle w)
          (connections w) l (error_log w).

Definition with_idle (rl : reslist_state) (ntotal : Z) (idle : list PGconnPtr)
    : reslist_state :=
  mkResList (rl_min rl) (rl_smax rl) (rl_hmax rl) (rl_constructor rl)
            (rl_destructor rl) (rl_params rl) (rl_pool rl) ntotal idle.

Definition dial (w : state) : ConnStatusType :=
  if backend_up w then CONNECTION_OK else CONNECTION_BAD.

Fixpoint status_of (c : PGconn) (l : list (PGconn * ConnStatusType))
    : ConnStatusType :=
  match l with
  | [] => CONNECTION_BAD
  | (c', s) :: r => if Nat.eqb c c' then s else status_of c r
  end.

Fixpoint set_status (c : PGconn) (s : ConnStatusType)
    (l : list (PGconn * ConnStatusType)) : list (PGconn * ConnStatusType) :=
  match l with
  | [] => []
  | (c', s') :: r =>
      if Nat.eqb c c' then (c', s) :: r else (c', s') :: set_status c s r
  end.

Definition drop (c : PGconn) (l : list (PGconn * ConnStatusType))
    : list (PGconn * ConnStatusType) :=
  filter (fun e => negb (Nat.eqb c (fst e))) l.

Definition libs : Libs := {|
  world := state;
  lib_PQconnectdb := fun _ w =>
    (Some (next_handle w),
     with_connections w (S (next_handle w))
                      ((next_handle w, dial w) :: connections w));
  lib_PQstatus := fun conn w =>
    match conn with
    | Some c => status_of c (connections w)
    | None => CONNECTION_BAD
    end;
  lib_PQerrorMessage := fun _ _ => "could not connect to server";
  lib_PQbackendPID := fun conn _ =>
    match conn with
    | Some c => 100 + Z.of_nat c
    | None => 0
    end;
  lib_PQreset := fun conn w =>
    match conn with
    | Some c =>
        with_connections w (next_handle w)
                         (set_status c (dial w) (connections w))
    | None => w
    end;
  lib_PQfinish := fun conn w =>
    match conn with
    | Some c => with_connections w (next_handle w) (drop c (connections w))
    | None => w
    end;
  lib_PQtrace := fun _ _ w => w;
  lib_PQuntrace := fun _ w => w;
  lib_getpid := fun _ => 1;
  lib_fopen := fun _ _ w =>
    if trace_dir_writable w then
      (Some (next_handle w),
       with_connections w (S (next_handle w)) (connections w))
    else (None, w);
  lib_apr_pool_cleanup_register := fun _ _ w => w;
  lib_ap_log_error := fun msg w =>
    mkState (backend_up w) (trace_dir_writable w) (next_handle w)
            (connections w) (reslists w) (error_log w ++ [msg])
|}.

(** Running a computation of the module inside a library call: only its
    effect on the world is kept. *)
Definition run {A : Type} (c : M (L := libs) A) (w : state) (default : A)
    : A * state :=
  match c (mkMachine (L := libs) w []) with
  | Some (a, m) => (a, ext m)
  | None => (default, w)
  end.

Definition create_resource (rl : reslist_state) (w : state)
    : (apr_status_t * PGconnPtr) * state :=
  let '((st, cell), w') :=
    run (call_constructor (rl_constructor rl) (Some None)
           (Some (rl_params rl)) (rl_pool rl))
        w (APR_EGENERAL, None) in
  match cell with
  | Some p => ((st, p), w')
  | None => ((st, None), w')
  end.

Definition destroy_resource (rl : reslist_state) (p : PGconnPtr) (w : state)
    : apr_status_t * state :=
  run (call_destructor (rl_destructor rl) p (Some (rl_params rl)) (rl_pool rl))
      w APR_EGENERAL.

(** [apr_reslist_maintain], for a list without time-to-live: create
    resources while there are fewer than [min] idle and fewer than [hmax] in
    all. *)
Fixpoint maintain (fuel : nat) (rl : reslist_state) (w : state)
    : apr_status_t * reslist_state * state :=
  match fuel with
  | O => (APR_SUCCESS, rl, w)
  | S fuel' =>
      if (Z.of_nat (List.length (rl_idle rl)) <? rl_min rl)
         && (rl_ntotal rl <? rl_hmax rl) then
        let '((st, p), w') := create_resource rl w in
        if st =? APR_SUCCESS then
          maintain fuel' (with_idle rl (rl_ntotal rl + 1) (p :: rl_idle rl)) w'
        else (st, rl, w')
      else (APR_SUCCESS, rl, w)
  end.

Definition apr_reslist_maintain (rl : reslist_state) (w : state)
    : apr_status_t * reslist_state * state :=
  maintain (Z.to_nat (rl_hmax rl - rl_ntotal rl)) rl w.

(** The cleanup of a list: every idle resource is destroyed. *)
Fixpoint reslist_cleanup (rl : reslist_state) (idle : list PGconnPtr)
    (w : state) : state :=
  match idle with
  | [] => w
  | p :: rest => reslist_cleanup rl rest (snd (destroy_resource rl p w))
  end.

Fixpoint replace_nth {A : Type} (n : nat) (x : A) (l : list A) : list A :=
  match l, n with
  | [], _ => []
  | _ :: r, O => x :: r
  | a :: r, S n' => a :: replace_nth n' x r
  end.

Definition sim_create (min smax hmax ttl : Z)
    (con : apr_reslist_constructor) (de : apr_reslist_destructor)
    (params : tPGconnContainer) (pool : option apr_pool_t) (w : state)
    : (apr_status_t * apr_reslist_t) * state :=
  if (min <? 0) || (smax <? min) || (hmax <? min) || (hmax <? smax)
     || (hmax =? 0) || (ttl <? 0) then ((APR_EINVAL, O), w)
  else
    let '(st, rl, w') :=
      apr_reslist_maintain (mkResList min smax hmax con de params pool 0 [])
                           w in
    if st =? APR_SUCCESS then
      ((APR_SUCCESS, List.length (reslists w')),
       with_reslists w' (reslists w' ++ [rl]))
    else ((st, O), reslist_cleanup rl (rl_idle rl) w').

Definition sim_acquire (r : apr_reslist_t) (w : state)
    : option ((apr_status_t * PGconnPtr) * state) :=
  match nth_error (reslists w) r with
  | None => Some ((APR_EINVAL, None), w)
  | Some rl =>
      match rl_idle rl with
      | p :: rest =>
          Some ((APR_SUCCESS, p),
                with_reslists w
                  (replace_nth r (with_idle rl (rl_ntotal rl) rest)
                               (reslists w)))
      | [] =>
          if rl_hmax rl <=? rl_ntotal rl then None
          else
            let '((st, p), w') := create_resource rl w in
            if st =? APR_SUCCESS then
              Some ((APR_SUCCESS, p),
                    with_reslists w'
                      (replace_nth r (with_idle rl (rl_ntotal rl + 1) [])
                                   (reslists w')))
            else Some ((st, None), w')
      end
  end.

Definition sim_release (r : apr_reslist_t) (p : PGconnPtr) (w : state)
    : apr_status_t * state :=
  match nth_error (reslists w) r with
  | None => (APR_EINVAL, w)
  | Some rl =>
      let '(st, rl', w') :=
        apr_reslist_maintain (with_idle rl (rl_ntotal rl) (p :: rl_idle rl))
                             w in
      (st, with_reslists w' (replace_nth r rl' (reslists w')))
  end.

Definition sim_acquired_count (r : apr_reslist_t) (w : state) : Z :=
  match nth_error (reslists w) r with
  | None => 0
  | Some rl => uint32 (rl_ntotal rl - Z.of_nat (List.length (rl_idle rl)))
  end.

Definition reslist : ResList libs :=
  Build_ResList libs sim_create sim_acquire sim_release sim_acquired_count.

(** The idle resources of list [r]. *)
Definition idle_set (r : apr_reslist_t) (w : state) : list PGconnPtr :=
  match nth_error (reslists w) r with
  | Some rl => rl_idle rl
  | None => []
  end.

End Sim.

(** ** Observing a run *)

(** The value a computation returned, and the calls it left in the trace. *)
Definition result {L : Libs} {A : Type} (o : option (A * machine)) : option A :=
  match o with
  | Some (a, _) => Some a
  | None => None
  end.

Definition trace {L : Libs} {A : Type} (o : option (A * machine))
    : option (list call) :=
  match o with
  | Some (_, m) => Some (calls m)
  | None => None
  end.

Definition final {L : Libs} {A : Type} (o : option (A * machine))
    : option world :=
  match o with
  | Some (_, m) => Some (ext m)
  | None => None
  end.

(** ** What process start is to achieve

    The outcome of [PGconn_childInit] on one container, stated as a
    relation between the machine and the container before and after. *)

Definition pooling_enabled (c : tPGconnContainer) : bool :=
  1 <=? m_poolMaxHard c.

Definition constructor_for (c : tPGconnContainer) : apr_reslist_constructor :=
  match m_traceDir c with
  | Some _ => Fn_openPGconn_tracing
  | None => Fn_openPGconn
  end.

Definition destructor_for (c : tPGconnContainer) : apr_reslist_destructor :=
  match m_traceDir c with
  | Some _ => Fn_closePGconn_tracing
  | None => Fn_closePGconn
  end.

(** The creation call for a container. *)
Definition create_call (v_pool : option apr_pool_t) (c : tPGconnContainer)
    : call :=
  Call_apr_reslist_create (m_poolMin c) (m_poolMaxSoft c) (m_poolMaxHard c)
    (m_poolTTL c) (constructor_for c) (destructor_for c) c v_pool.

Definition is_create_call (e : call) : bool :=
  match e with
  | Call_apr_reslist_create _ _ _ _ _ _ _ _ => true
  | _ => false
  end.

(** The containers of the configuration at an address of the store, and
    the containers the walk over a chain of hosts comes by, host after
    host: those of a configuration that two hosts point to come twice. *)
Definition containers_at (store : list tPGconnServerConfig) (address : nat)
    : list tPGconnContainer :=
  match nth_error store address with
  | Some cfg => m_first_PGconnContainer cfg
  | None => []
  end.

Definition walked (store : list tPGconnServerConfig) (hosts : list nat)
    : list tPGconnContainer :=
  flat_map (containers_at store) hosts.

(** A container without regard to the list it holds. *)
Definition configuration (c : tPGconnContainer) : tPGconnContainer :=
  set_PGconnPool c None.

(** The creation requests of a trace, in order, each without regard to
    the list its container held when the request was made. *)
Definition requests (t : list call) : list call :=
  flat_map (fun e =>
              match e with
              | Call_apr_reslist_create mn smax hmax ttl con de params p =>
                  [Call_apr_reslist_create mn smax hmax ttl con de
                     (configuration params) p]
              | _ => []
              end) t.

Section EngineSetup.
Context {L : Libs} {R : ResList L}.

Definition create_for (v_pool : option apr_pool_t) (c : tPGconnContainer)
    (w : world) : (apr_status_t * apr_reslist_t) * world :=
  lib_apr_reslist_create (m_poolMin c) (m_poolMaxSoft c) (m_poolMaxHard c)
    (m_poolTTL c) (constructor_for c) (destructor_for c) c v_pool w.

Inductive engine_setup (v_pool : option apr_pool_t)
    : machine -> tPGconnContainer -> tPGconnContainer -> machine -> Prop :=
| setup_disabled (m : machine) (c : tPGconnContainer) :
    m_poolMaxHard c < 1 ->
    engine_setup v_pool m c c m
| setup_created (m : machine) (c : tPGconnContainer)
      (st : apr_status_t) (rl : apr_reslist_t) (w : world) :
    1 <= m_poolMaxHard c ->
    create_for v_pool c (ext m) = ((st, rl), w) ->
    st = APR_SUCCESS ->
    engine_setup v_pool m c (set_PGconnPool c (Some rl))
      (mkMachine
         (lib_apr_pool_cleanup_register v_pool
            (Cleanup_apr_reslist_destroy rl) w)
         (calls m ++ [create_call v_pool c;
                      Call_apr_pool_cleanup_register v_pool
                        (Cleanup_apr_reslist_destroy rl)]))
| setup_failed (m : machine) (c : tPGconnContainer)
      (st : apr_status_t) (rl : apr_reslist_t) (w : world) :
    1 <= m_poolMaxHard c ->
    create_for v_pool c (ext m) = ((st, rl), w) ->
    st <> APR_SUCCESS ->
    engine_setup v_pool m c c
      (mkMachine
         (lib_ap_log_error "Failed to create PGconn* resource list!" w)
         (calls m ++ [create_call v_pool c;
                      Call_ap_log_error
                        "Failed to create PGconn* resource list!"])).

(** The containers are set up one after the other. *)
Inductive engines_set_up (v_pool : option apr_pool_t)
    : machine -> list tPGconnContainer -> list tPGconnContainer ->
      machine -> Prop :=
| set_up_nil (m : machine) : engines_set_up v_pool m [] [] m
| set_up_cons (m m1 m2 : machine) (c c' : tPGconnContainer)
      (l l' : list tPGconnContainer) :
    engine_setup v_pool m c c' m1 ->
    engines_set_up v_pool m1 l l' m2 ->
    engines_set_up v_pool m (c :: l) (c' :: l') m2.

(** The hosts are walked one after the other; each walk sets up the
    containers of the host's configuration as the store has them then, and
    leaves them in the store. *)
Inductive hosts_set_up (v_pool : option apr_pool_t)
    : machine -> list tPGconnServerConfig -> list nat ->
      list tPGconnServerConfig -> machine -> Prop :=
| hosts_done (m : machine) (store : list tPGconnServerConfig) :
    hosts_set_up v_pool m store [] store m
| hosts_step (m m1 m2 : machine) (store store' : list tPGconnServerConfig)
      (address : nat) (cfg : tPGconnServerConfig)
      (l' : list tPGconnContainer) (next : list nat) :
    nth_error store address = Some cfg ->
    engines_set_up v_pool m (m_first_PGconnContainer cfg) l' m1 ->
    hosts_set_up v_pool m1 (update_nth address (mkServerConfig l') store)
                 next store' m2 ->
    hosts_set_up v_pool m store (address :: next) store' m2.
End EngineSetup.

(** ** Scenarios

    Concrete containers and states of the reference platform on which the
    module's code is run below. *)

Module Scenario.

Definition v_pool : option apr_pool_t := Some 9%nat.

(** A container as the configuration leaves it, before process start. *)
Definition config (name : string) (min smax hmax : Z) (trace : option string)
    : tPGconnContainer :=
  mkContainer None name "dbname=app" min smax hmax 0 trace DISABLED None.

(** The resource list of a container, with [ntotal] resources of which
    [idle] are idle. *)
Definition list_of (c : tPGconnContainer) (ntotal : Z) (idle : list PGconnPtr)
    : Sim.reslist_state :=
  Sim.mkResList (m_poolMin c) (m_poolMaxSoft c) (m_poolMaxHard c)
                Fn_openPGconn Fn_closePGconn c v_pool ntotal idle.

Definition start (w : Sim.state) : machine (L := Sim.libs) :=
  mkMachine (L := Sim.libs) w [].

(** Nothing created yet. *)
Definition boot (backend_up trace_dir_writable : bool) : Sim.state :=
  Sim.mkState backend_up trace_dir_writable 0 [] [] [].

(** [db1]: one connection at most, kept idle when released. *)
Definition db1 : tPGconnContainer := config "db1" 0 1 1 None.
Definition db1_ready : tPGconnContainer := set_PGconnPool db1 (Some 0%nat).

(** The backend has gone away; the only connection of [db1] sits idle in
    the list, broken. *)
Definition stale : Sim.state :=
  Sim.mkState false true 1 [(0%nat, CONNECTION_BAD)]
              [list_of db1 1 [Some 0%nat]] [].

(** As [stale], but the backend is back: a reset repairs the connection. *)
Definition recoverable : Sim.state :=
  Sim.mkState true true 1 [(0%nat, CONNECTION_BAD)]
              [list_of db1 1 [Some 0%nat]] [].

(** The only connection of [db1] is idle and healthy. *)
Definition healthy : Sim.state :=
  Sim.mkState true true 1 [(0%nat, CONNECTION_OK)]
              [list_of db1 1 [Some 0%nat]] [].

(** The only connection of [db1] is handed out. *)
Definition exhausted : Sim.state :=
  Sim.mkState true true 1 [(0%nat, CONNECTION_OK)] [list_of db1 1 []] [].

(** The list of [db1] is empty and the backend cannot be reached. *)
Definition unreachable : Sim.state :=
  Sim.mkState false true 0 [] [list_of db1 0 []] [].

(** [db2]: two idle connections wanted, three at most.  Both connections
    are handed out and the backend has gone away. *)
Definition db2 : tPGconnContainer := config "db2" 2 2 3 None.
Definition db2_ready : tPGconnContainer := set_PGconnPool db2 (Some 0%nat).
Definition busy : Sim.state :=
  Sim.mkState false true 2 [(0%nat, CONNECTION_OK); (1%nat, CONNECTION_OK)]
              [list_of db2 2 []] [].

(** [off]: pooling disabled by [PoolMaxHard 0]. *)
Definition off : tPGconnContainer := config "off" 0 0 0 None.

(** [eager]: one connection is opened when the list is created. *)
Definition eager : tPGconnContainer := config "eager" 1 1 1 None.

(** [traced]: protocol tracing into a directory. *)
Definition traced : tPGconnContainer :=
  config "traced" 0 1 1 (Some "/var/trace").

(** The module's entry points on the reference platform. *)
Definition acquire := acquirePGconn (L := Sim.libs) (R := Sim.reslist).
Definition release := releasePGconn (L := Sim.libs) (R := Sim.reslist).
Definition measure :=
  measurePGconnAvailability (L := Sim.libs) (R := Sim.reslist).
Definition child_init := PGconn_childInit (L := Sim.libs) (R := Sim.reslist).

(** Two virtual hosts whose module configuration is one and the same
    object. *)
Definition shared_hosts : list (option nat) := [Some 0%nat; Some 0%nat].

End Scenario.

(** ** Vocabulary of the further properties *)

(** Two containers with the same configuration: they differ at most in the
    resource list they hold. *)
Definition same_config (c c' : tPGconnContainer) : Prop :=
  set_PGconnPool c None = set_PGconnPool c' None.

(** The state of the containers of a store against an earlier one: every
    container has its configuration, and one with [m_poolMaxHard < 1] is
    as it was. *)
Definition kept (c c' : tPGconnContainer) : Prop :=
  same_config c c' /\ (m_poolMaxHard c < 1 -> c' = c).

Definition store_kept (store store' : list tPGconnServerConfig) : Prop :=
  Forall2 (fun s s' => Forall2 kept (m_first_PGconnContainer s)
                               (m_first_PGconnContainer s'))
          store store'.

(** The destruction of the list a container holds is registered with a
    pool in a trace, if the container holds another list than before. *)
Definition cleanup_registered (v_pool : option apr_pool_t) (t : list call)
    (c c' : tPGconnContainer) : Prop :=
  m_PGconnPool c' <> m_PGconnPool c ->
  exists rl,
    m_PGconnPool c' = Some rl /\
    In (Call_apr_pool_cleanup_register v_pool
          (Cleanup_apr_reslist_destroy rl)) t.

(** The directive names [PGconn_containerCommand] knows, each compared
    without regard to case. *)
Definition known_directives : list string :=
  ["ConnInfo"; "PoolMin"; "PoolMaxSoft"; "PoolMaxHard"; "PoolTTL";
   "TraceDir"; "CatalogCache"].

Definition known_directive (d : ap_directive_t) : Prop :=
  Exists (fun k => eq_nocase (directive d) k) known_directives.

(** The calls a computation added to the trace it started from. *)
Definition added {L : Libs} {A : Type} (m : machine)
    (o : option (A * machine)) : option (list call) :=
  match o with
  | Some (_, m') => Some (skipn (List.length (calls m)) (calls m'))
  | None => None
  end.

Definition is_PQfinish (e : call) : bool :=
  match e with
  | Call_PQfinish _ => true
  | _ => false
  end.

Definition is_PQreset (e : call) : bool :=
  match e with
  | Call_PQreset _ => true
  | _ => false
  end.

(** The name of the trace file of a connection: ["%s/%d_%d.trc"] of the
    trace directory, the process id and the backend's process id. *)
Definition trace_file_name (dir : string) (pid backend : Z) : string :=
  dir ++ "/" ++ format_d pid ++ "_" ++ format_d backend ++ ".trc".

(** The files a trace shows being opened. *)
Fixpoint fopen_paths (t : list call) : list string :=
  match t with
  | [] => []
  | Call_fopen path _ :: r => path :: fopen_paths r
  | _ :: r => fopen_paths r
  end.

(** ** A reference configuration library

    The parsers [PGconn_containerCommand] is linked against, for running
    the command on concrete directives: [strtol] and [apr_strtoi64] in base
    10 on a platform with a 64-bit [long], [ap_getword_conf] as in httpd's
    [util.c], a server root of [/etc/httpd] for paths without [.] and [..]
    segments, and no mod_pgproc. *)

Module Httpd.

Definition isspace (c : ascii) : bool :=
  let n := N_of_ascii c in
  (((9 <=? n) && (n <=? 13)) || (n =? 32))%N.

Fixpoint skip_spaces (s : string) : string :=
  match s with
  | EmptyString => s
  | String c r => if isspace c then skip_spaces r else s
  end.

Definition digit_of (c : ascii) : option Z :=
  let n := N_of_ascii c in
  if ((48 <=? n) && (n <=? 57))%N then Some (Z.of_N n - 48) else None.

Fixpoint read_digits (s : string) (acc : Z) : Z * string :=
  match s with
  | EmptyString => (acc, s)
  | String c r =>
      match digit_of c with
      | Some d => read_digits r (acc * 10 + d)
      | None => (acc, s)
      end
  end.

Definition starts_with_digit (s : string) : bool :=
  match s with
  | EmptyString => false
  | String c _ => match digit_of c with Some _ => true | None => false end
  end.

(** [strtol(s, &end, 10)]: blanks, an optional sign, digits; the value is
    clamped to the range of [long]; without a digit nothing is consumed. *)
Definition strtol10 (s : string) : Z * string :=
  let t := skip_spaces s in
  let '(negative, u) :=
    match t with
    | String c r =>
        if Ascii.eqb c "-"%char then (true, r)
        else if Ascii.eqb c "+"%char then (false, r)
        else (false, t)
    | EmptyString => (false, t)
    end in
  if starts_with_digit u then
    let (v, rest) := read_digits u 0 in
    (Z.max (- 2 ^ 63) (Z.min (2 ^ 63 - 1) (if negative then - v else v)),
     rest)
  else (0, s).

Definition backslash : ascii := "092"%char.

(** The scan for the end of a quoted word: the text up to the closing
    quote, escapes still in place, and what follows it. *)
Fixpoint scan_quoted (quote : ascii) (s : string) : string * string :=
  match s with
  | EmptyString => (EmptyString, EmptyString)
  | String c r =>
      if Ascii.eqb c quote then (EmptyString, r)
      else if Ascii.eqb c backslash then
        match r with
        | String d r' =>
            if Ascii.eqb d quote || Ascii.eqb d backslash then
              let (a, b) := scan_quoted quote r' in
              (String c (String d a), b)
            else
              let (a, b) := scan_quoted quote r in (String c a, b)
        | EmptyString => (String c EmptyString, EmptyString)
        end
      else let (a, b) := scan_quoted quote r in (String c a, b)
  end.

Fixpoint scan_word (s : string) : string * string :=
  match s with
  | EmptyString => (EmptyString, EmptyString)
  | String c r =>
      if isspace c then (EmptyString, s)
      else let (a, b) := scan_word r in (String c a, b)
  end.

(** [substring_conf]: a backslash before a backslash, or before the quote
    of a quoted word, is dropped. *)
Fixpoint substring_conf (quote : option ascii) (s : string) : string :=
  match s with
  | EmptyString => EmptyString
  | String c r =>
      if Ascii.eqb c backslash then
        match r with
        | String d r' =>
            if Ascii.eqb d backslash
               || match quote with
                  | Some q => Ascii.eqb d q
                  | None => false
                  end
            then String d (substring_conf quote r')
            else String c (substring_conf quote r)
        | EmptyString => String c EmptyString
        end
      else String c (substring_conf quote r)
  end.

Definition getword_conf (line : string) : string * string :=
  match skip_spaces line with
  | EmptyString => (EmptyString, EmptyString)
  | String c r =>
      if Ascii.eqb c "034"%char || Ascii.eqb c "'"%char then
        let (w, rest) := scan_quoted c r in
        (substring_conf (Some c) w, skip_spaces rest)
      else
        let (w, rest) := scan_word (String c r) in
        (substring_conf None w, skip_spaces rest)
  end.

Definition server_root_relative (path : string) : option string :=
  match path with
  | String "/" _ => Some path
  | _ => Some ("/etc/httpd/" ++ path)
  end.

Definition config_lib : ConfigLib := {|
  ap_getword_conf := getword_conf;
  strtol := strtol10;
  apr_strtoi64 := strtol10;
  ap_server_root_relative := server_root_relative;
  getAllFunctionDetails := None
|}.

(** The container command on a fresh or given server configuration. *)
Definition container (cfg : option tPGconnServerConfig)
    (children : list ap_directive_t) (v_args : string)
    : option string * option tPGconnServerConfig :=
  PGconn_containerCommand (C := config_lib)
    (mkCmdParms cfg children false) v_args.

(** A container with every directive set. *)
Definition full_container : list ap_directive_t :=
  [mkDirective "ConnInfo"
     (dquote ++ "dbname=app user=web" ++ dquote);
   mkDirective "PoolMin" "1";
   mkDirective "poolmaxsoft" "2";
   mkDirective "PoolMaxHard" "3";
   mkDirective "PoolTTL" "60000000";
   mkDirective "TraceDir" "trace";
   mkDirective "CatalogCache" "disabled"].

End Httpd.

(** * Properties *)

(** ** String comparison *)

Lemma N_of_ascii_inj (a b : ascii) : N_of_ascii a = N_of_ascii b -> a = b.
Proof.
  intros H.
  rewrite <- (ascii_N_embedding a), <- (ascii_N_embedding b).
  now rewrite H.
Qed.

Lemma strcmp_0_iff (a b : string) : strcmp a b = 0 <-> a = b.
Proof.
  revert b; induction a as [|c1 r1 IH]; intros [|c2 r2]; cbn;
    try (split; [lia | discriminate]).
  - tauto.
  - destruct (N.compare_spec (N_of_ascii c1) (N_of_ascii c2)) as [E|E|E].
    + apply N_of_ascii_inj in E; subst c2.
      rewrite IH. split; [now intros -> | now intros [= ->]].
    + split; [lia | intros [= -> _]; lia].
    + split; [lia | intros [= -> _]; lia].
Qed.

Lemma strcasecmp_0_iff (a b : string) : strcasecmp a b = 0 <-> eq_nocase a b.
Proof.
  unfold eq_nocase.
  revert b; induction a as [|c1 r1 IH]; intros [|c2 r2]; cbn;
    try (split; [lia | discriminate]).
  - tauto.
  - destruct (N.compare_spec (N_of_ascii (tolower c1))
                             (N_of_ascii (tolower c2))) as [E|E|E].
    + apply N_of_ascii_inj in E. rewrite E, IH.
      split; [now intros -> | now intros [= ->]].
    + split; [lia | intros [= E' _]; rewrite E' in E; lia].
    + split; [lia | intros [= E' _]; rewrite E' in E; lia].
Qed.

Lemma strcasecmp_eqb_false (a b : string) :
  (strcasecmp a b =? 0) = false <-> ~ eq_nocase a b.
Proof.
  rewrite <- strcasecmp_0_iff, Z.eqb_neq. tauto.
Qed.

(** ** Return codes *)

(** The five codes have five different values; PGCONN_ALREADYACQUIRED is
    the one with value 0. *)
Lemma ePGconnStatus_value_inj (a b : ePGconnStatus) :
  ePGconnStatus_value a = ePGconnStatus_value b -> a = b.
Proof. destruct a, b; cbn; intros H; try reflexivity; discriminate. Qed.

(** ** Registry lookup *)

Lemma getPGconnContainerByName_loop_found (l : list tPGconnContainer)
    (name : string) (c : tPGconnContainer) :
  getPGconnContainerByName_loop l name = Some c ->
  exists pre post,
    l = (pre ++ c :: post)%list /\
    eq_nocase (m_name c) name /\
    Forall (fun c' => ~ eq_nocase (m_name c') name) pre.
Proof.
  induction l as [|a l IH]; cbn; [discriminate|].
  destruct (strcasecmp (m_name a) name =? 0) eqn:E.
  - intros [= <-]. exists [], l. repeat split; auto.
    apply strcasecmp_0_iff. now apply Z.eqb_eq.
  - intros H. destruct (IH H) as (pre & post & -> & Hc & Hpre).
    exists (a :: pre), post. repeat split; auto.
    constructor; auto. now apply strcasecmp_eqb_false.
Qed.

Lemma getPGconnContainerByName_loop_missing (l : list tPGconnContainer)
    (name : string) :
  getPGconnContainerByName_loop l name = None ->
  Forall (fun c' => ~ eq_nocase (m_name c') name) l.
Proof.
  induction l as [|a l IH]; cbn; [constructor|].
  destruct (strcasecmp (m_name a) name =? 0) eqn:E; [discriminate|].
  intros H. constructor; auto. now apply strcasecmp_eqb_false.
Qed.

(** C6: on a registry and a name, the lookup returns the first container,
    in registration order, whose name equals the queried name up to case
    (every container before it has a different name), and returns NULL
    (NotFound) only when no container's name equals the queried name up to
    case. *)
Theorem getPGconnContainerByName_first_match
    (cfg : tPGconnServerConfig) (name : string) :
  match getPGconnContainerByName (Some cfg) (Some name) with
  | Some c =>
      exists pre post,
        m_first_PGconnContainer cfg = (pre ++ c :: post)%list /\
        eq_nocase (m_name c) name /\
        Forall (fun c' => ~ eq_nocase (m_name c') name) pre
  | None =>
      Forall (fun c' => ~ eq_nocase (m_name c') name)
             (m_first_PGconnContainer cfg)
  end.
Proof.
  cbn.
  destruct (getPGconnContainerByName_loop (m_first_PGconnContainer cfg) name)
    as [c|] eqn:E.
  - now apply getPGconnContainerByName_loop_found.
  - now apply getPGconnContainerByName_loop_missing.
Qed.

(** A registry or a name that is NULL finds nothing. *)
Lemma getPGconnContainerByName_null (cfg : option tPGconnServerConfig)
    (name : option string) :
  getPGconnContainerByName None name = None /\
  getPGconnContainerByName cfg None = None.
Proof. split; [reflexivity | now destruct cfg]. Qed.

Example lookup_ignores_case :
  let db1 := mkContainer None "Db1" "dbname=a" 0 0 1 0 None DISABLED None in
  let db2 := mkContainer None "db2" "dbname=b" 0 0 1 0 None DISABLED None in
  let dup := mkContainer None "DB2" "dbname=c" 0 0 1 0 None DISABLED None in
  let cfg := Some (mkServerConfig [db1; db2; dup]) in
  getPGconnContainerByName cfg (Some "dB2") = Some db2 /\
  getPGconnContainerByName cfg (Some "DB1") = Some db1 /\
  getPGconnContainerByName cfg (Some "db3") = None.
Proof. repeat split. Qed.

(** ** Acquire and release *)

(** Unfolds the monad down to the library functions. *)
Ltac run_code :=
  unfold apr_reslist_acquire, apr_reslist_release, apr_reslist_acquired_count,
    apr_reslist_create, apr_pool_cleanup_register, ap_log_error,
    PQconnectdb, PQstatus, PQerrorMessage, PQbackendPID, PQreset, PQfinish,
    PQtrace, PQuntrace, getpid, fopen,
    bind, effect, waiting, query, ret, fault; cbn.

Section FacadeProperties.
Context {L : Libs} {R : ResList L}.

(** C10: with a NULL container or a NULL pointer to the connection cell,
    acquire and release return PGCONN_BAD; the world and the call trace
    are as before (no library is called) and the cell, if there is one,
    keeps its content. *)
Theorem null_arguments_report_bad
    (c : option tPGconnContainer) (slot : PGconnSlot) (m : machine) :
  acquirePGconn None slot m = Some ((PGCONN_BAD, slot), m) /\
  acquirePGconn c None m = Some ((PGCONN_BAD, None), m) /\
  releasePGconn None slot m = Some ((PGCONN_BAD, slot), m) /\
  releasePGconn c None m = Some ((PGCONN_BAD, None), m).
Proof.
  repeat split; try reflexivity; now destruct c.
Qed.

(** C4: the checks of acquire on a container, in order.  A cell that
    already holds a connection gives PGCONN_ALREADYACQUIRED, whether or
    not the container has a resource list, with the cell, the world and
    the call trace untouched.  Otherwise a container without a resource
    list gives PGCONN_UNAVAILABLE, again without any call.  Otherwise the
    resource list is asked once, and any status but APR_SUCCESS gives
    PGCONN_UNAVAILABLE. *)
Theorem acquirePGconn_check_order (c : tPGconnContainer) (m : machine) :
  (forall conn,
      acquirePGconn (Some c) (Some (Some conn)) m
      = Some ((PGCONN_ALREADYACQUIRED, Some (Some conn)), m)) /\
  (m_PGconnPool c = None ->
   acquirePGconn (Some c) (Some None) m
   = Some ((PGCONN_UNAVAILABLE, Some None), m)) /\
  (forall r st conn w,
      m_PGconnPool c = Some r ->
      lib_apr_reslist_acquire r (ext m) = Some ((st, conn), w) ->
      st <> APR_SUCCESS ->
      acquirePGconn (Some c) (Some None) m
      = Some ((PGCONN_UNAVAILABLE, Some conn),
              mkMachine w (calls m ++ [Call_apr_reslist_acquire r]))).
Proof.
  split; [reflexivity|]. split.
  - intros E. unfold acquirePGconn. now rewrite E.
  - intros r st conn w E Hacq Hst.
    unfold acquirePGconn. rewrite E. run_code. rewrite Hacq.
    apply Z.eqb_neq in Hst. now rewrite Hst.
Qed.

(** C1 (as the code has it): acquire on a container whose resource list
    hands out a connection.  A connection that is CONNECTION_OK is
    returned as it is, without a reset.  Otherwise PQreset is called on
    it exactly once and the status is read again: if it is CONNECTION_OK
    now, the result is PGCONN_ACQUIRED and the cell holds the
    connection; if not, the connection is handed to apr_reslist_release
    of the same list (the call is made once, its status ignored), the
    cell is set to NULL and the result is PGCONN_BAD. *)
Theorem acquirePGconn_validates
    (c : tPGconnContainer) (r : apr_reslist_t) (m : machine)
    (conn : PGconnPtr) (w1 : world) :
  m_PGconnPool c = Some r ->
  lib_apr_reslist_acquire r (ext m) = Some ((APR_SUCCESS, conn), w1) ->
  let t1 := (calls m ++ [Call_apr_reslist_acquire r])%list in
  let w2 := lib_PQreset conn w1 in
  acquirePGconn (Some c) (Some None) m =
  match lib_PQstatus conn w1, lib_PQstatus conn w2 with
  | CONNECTION_OK, _ =>
      Some ((PGCONN_ACQUIRED, Some conn), mkMachine w1 t1)
  | CONNECTION_BAD, CONNECTION_OK =>
      Some ((PGCONN_ACQUIRED, Some conn),
            mkMachine w2 (t1 ++ [Call_PQreset conn]))
  | CONNECTION_BAD, CONNECTION_BAD =>
      Some ((PGCONN_BAD, Some None),
            mkMachine (snd (lib_apr_reslist_release r conn w2))
                      ((t1 ++ [Call_PQreset conn])
                         ++ [Call_apr_reslist_release r conn]))
  end.
Proof.
  intros E Hacq t1 w2. subst t1 w2.
  unfold acquirePGconn. rewrite E. run_code. rewrite Hacq. cbn.
  destruct (lib_PQstatus conn w1); cbn; [reflexivity|].
  destruct (lib_PQstatus conn (lib_PQreset conn w1)); cbn; [reflexivity|].
  now destruct (lib_apr_reslist_release r conn (lib_PQreset conn w1)).
Qed.

(** Release on a container with a resource list, outcome by outcome.  An
    empty cell gives PGCONN_BAD and nothing changes.  A cell that holds a
    connection has it passed to apr_reslist_release once; on APR_SUCCESS
    the cell is set to NULL and the result is PGCONN_RELEASED, on any
    other status the result is PGCONN_BAD and the cell keeps the
    connection. *)
Lemma releasePGconn_outcomes
    (c : tPGconnContainer) (r : apr_reslist_t) (m : machine) :
  m_PGconnPool c = Some r ->
  releasePGconn (Some c) (Some None) m = Some ((PGCONN_BAD, Some None), m) /\
  forall conn,
    releasePGconn (Some c) (Some (Some conn)) m =
    let (st, w) := lib_apr_reslist_release r (Some conn) (ext m) in
    Some (if st =? APR_SUCCESS then (PGCONN_RELEASED, Some None)
          else (PGCONN_BAD, Some (Some conn)),
          mkMachine w (calls m ++ [Call_apr_reslist_release r (Some conn)])).
Proof.
  intros E. split; [reflexivity|].
  intros conn. unfold releasePGconn. rewrite E. run_code.
  destruct (lib_apr_reslist_release r (Some conn) (ext m)) as [st w].
  now destruct (st =? APR_SUCCESS).
Qed.

(** C5 (where the code departs from it): release with a connection in
    the cell hands the connection to apr_reslist_release of the
    container's list, once.  When that call reports anything but
    APR_SUCCESS, release returns PGCONN_BAD, not PGCONN_RELEASED, and the
    cell is not cleared: it still holds the connection that the list has
    just been given back. *)
Theorem releasePGconn_failed_release_keeps_cell
    (c : tPGconnContainer) (r : apr_reslist_t) (conn : PGconn)
    (m : machine) (st : apr_status_t) (w : world) :
  m_PGconnPool c = Some r ->
  lib_apr_reslist_release r (Some conn) (ext m) = (st, w) ->
  st <> APR_SUCCESS ->
  releasePGconn (Some c) (Some (Some conn)) m
  = Some ((PGCONN_BAD, Some (Some conn)),
          mkMachine w (calls m ++ [Call_apr_reslist_release r (Some conn)])).
Proof.
  intros E Hrel Hst. unfold releasePGconn. rewrite E. run_code.
  rewrite Hrel. apply Z.eqb_neq in Hst. now rewrite Hst.
Qed.

(** Release does not look at the container's list before using it: with
    a connection in the cell and no list, the NULL handle goes to
    apr_reslist_release. *)
Lemma releasePGconn_no_engine (c : tPGconnContainer) (conn : PGconn)
    (m : machine) :
  m_PGconnPool c = None ->
  releasePGconn (Some c) (Some (Some conn)) m = None.
Proof.
  intros E. unfold releasePGconn. now rewrite E.
Qed.

(** A double acquire is refused and a release without acquire is bad,
    whatever the container. *)
Lemma caller_discipline (c : tPGconnContainer) (conn : PGconn)
    (m : machine) :
  acquirePGconn (Some c) (Some (Some conn)) m
  = Some ((PGCONN_ALREADYACQUIRED, Some (Some conn)), m) /\
  releasePGconn (Some c) (Some None) m = Some ((PGCONN_BAD, Some None), m).
Proof. split; reflexivity. Qed.
End FacadeProperties.

(** *** Runs on the reference platform *)

Module FacadeRuns.
Import Scenario.


(** A pool without a resource list is unavailable, and so is one whose
    list cannot open a connection. *)
Lemma acquirePGconn_check_order_witness :
  result (acquire (Some off) (Some None) (start (boot true true)))
  = Some (PGCONN_UNAVAILABLE, Some None) /\
  result (acquire (Some db1_ready) (Some None) (start unreachable))
  = Some (PGCONN_UNAVAILABLE, Some None) /\
  trace (acquire (Some db1_ready) (Some None) (start unreachable))
  = Some [Call_apr_reslist_acquire 0%nat].
Proof.
  destruct (acquirePGconn_check_order (L := Sim.libs) (R := Sim.reslist)
              off (start (boot true true))) as (_ & Hoff & _).
  destruct (acquirePGconn_check_order (L := Sim.libs) (R := Sim.reslist)
              db1_ready (start unreachable)) as (_ & _ & Hdown).
  pose proof (Hdown 0%nat APR_EGENERAL None
                (Sim.mkState false true 1 [] [list_of db1 0 []]
                   ["PQconnectdb() error: could not connect to server"])
                eq_refl eq_refl) as H.
  unfold acquire. split; [|split].
  - rewrite Hoff; reflexivity.
  - rewrite H; [reflexivity | discriminate].
  - rewrite H; [reflexivity | discriminate].
Defined.

(** At the hard maximum with nothing idle the list keeps the caller
    waiting: acquire does not return. *)
Example acquire_exhausted :
  acquire (Some db1_ready) (Some None) (start exhausted) = None.
Proof. reflexivity. Qed.

(** A broken idle connection that a reset repairs is acquired after one
    reset. *)
Lemma acquirePGconn_validates_witness :
  result (acquire (Some db1_ready) (Some None) (start recoverable))
  = Some (PGCONN_ACQUIRED, Some (Some 0%nat)) /\
  trace (acquire (Some db1_ready) (Some None) (start recoverable))
  = Some [Call_apr_reslist_acquire 0%nat; Call_PQreset (Some 0%nat)].
Proof.
  unfold acquire.
  rewrite (acquirePGconn_validates (L := Sim.libs) (R := Sim.reslist)
             db1_ready 0%nat (start recoverable) (Some 0%nat)
             (Sim.with_reslists recoverable [list_of db1 1 []])
             eq_refl eq_refl).
  split; reflexivity.
Defined.

Example acquire_healthy :
  result (acquire (Some db1_ready) (Some None) (start healthy))
  = Some (PGCONN_ACQUIRED, Some (Some 0%nat)) /\
  trace (acquire (Some db1_ready) (Some None) (start healthy))
  = Some [Call_apr_reslist_acquire 0%nat].
Proof. split; reflexivity. Qed.

(** C1 as stated fails: with the backend away, the broken connection is
    reset once, acquire returns PGCONN_BAD with the cell NULL, and the
    connection is back in the idle list of the resource list: it was
    released, not destroyed. *)
Lemma acquirePGconn_bad_connection_returns_to_idle :
  result (acquire (Some db1_ready) (Some None) (start stale))
  = Some (PGCONN_BAD, Some None) /\
  trace (acquire (Some db1_ready) (Some None) (start stale))
  = Some [Call_apr_reslist_acquire 0%nat; Call_PQreset (Some 0%nat);
          Call_apr_reslist_release 0%nat (Some 0%nat)] /\
  option_map (Sim.idle_set 0%nat)
             (final (acquire (Some db1_ready) (Some None) (start stale)))
  = Some [Some 0%nat].
Proof. repeat split. Qed.

(** Releasing into a list that has room returns PGCONN_RELEASED. *)
Example release_into_a_list_with_room :
  result (release (Some db1_ready) (Some None) (start exhausted))
  = Some (PGCONN_BAD, Some None) /\
  result (release (Some db1_ready) (Some (Some 0%nat)) (start exhausted))
  = Some (PGCONN_RELEASED, Some None).
Proof.
  destruct (releasePGconn_outcomes (L := Sim.libs) (R := Sim.reslist)
              db1_ready 0%nat (start exhausted) eq_refl) as [Hempty Hheld].
  unfold release. split.
  - rewrite Hempty; reflexivity.
  - rewrite Hheld; reflexivity.
Qed.

(** The list of [db2] wants two idle connections and, after taking the
    released one back, cannot open another because the backend is away;
    apr_reslist_release reports that.  Release returns PGCONN_BAD with
    the cell still holding connection 1, which is idle in the list by
    then: the next acquire, with an empty cell, is handed connection 1
    as well. *)
Lemma releasePGconn_failed_release_keeps_cell_witness :
  result (release (Some db2_ready) (Some (Some 1%nat)) (start busy))
  = Some (PGCONN_BAD, Some (Some 1%nat)) /\
  trace (release (Some db2_ready) (Some (Some 1%nat)) (start busy))
  = Some [Call_apr_reslist_release 0%nat (Some 1%nat)] /\
  option_map (Sim.idle_set 0%nat)
             (final (release (Some db2_ready) (Some (Some 1%nat))
                             (start busy)))
  = Some [Some 1%nat] /\
  result ((release (Some db2_ready) (Some (Some 1%nat)) ;;
           acquire (Some db2_ready) (Some None))%pg (start busy))
  = Some (PGCONN_ACQUIRED, Some (Some 1%nat)).
Proof.
  pose proof (releasePGconn_failed_release_keeps_cell
                (L := Sim.libs) (R := Sim.reslist)
                db2_ready 0%nat 1%nat (start busy) APR_EGENERAL
                (Sim.mkState false true 3
                   [(0%nat, CONNECTION_OK); (1%nat, CONNECTION_OK)]
                   [list_of db2 2 [Some 1%nat]]
                   ["PQconnectdb() error: could not connect to server"])
                eq_refl eq_refl ltac:(discriminate)) as H.
  unfold release.
  split; [exact (f_equal result H)|].
  split; [exact (f_equal trace H)|].
  split; reflexivity.
Defined.

End FacadeRuns.

(** ** Process start *)

Lemma Forall2_same {A : Type} (P : A -> A -> Prop) (l : list A) :
  (forall x, P x x) -> Forall2 P l l.
Proof. intros H. induction l; constructor; auto. Qed.

Lemma Forall2_chain {A : Type} (P Q T : A -> A -> Prop) (l1 l2 l3 : list A) :
  (forall x y z, P x y -> Q y z -> T x z) ->
  Forall2 P l1 l2 -> Forall2 Q l2 l3 -> Forall2 T l1 l3.
Proof.
  intros H H12. revert l3.
  induction H12 as [|x y l1 l2 Hxy _ IH]; intros l3 H23; inversion H23; subst;
    constructor; eauto.
Qed.

Lemma Forall2_update_nth {A : Type} (P : A -> A -> Prop) (l : list A)
    (n : nat) (x y : A) :
  (forall z, P z z) ->
  nth_error l n = Some x -> P x y -> Forall2 P l (update_nth n y l).
Proof.
  intros Hrefl. revert n.
  induction l as [|a l IH]; intros [|n]; cbn; try discriminate.
  - intros [= ->] H. constructor; [exact H | now apply Forall2_same].
  - intros Hn H. constructor; auto.
Qed.

Lemma length_update_nth {A : Type} (n : nat) (x : A) (l : list A) :
  List.length (update_nth n x l) = List.length l.
Proof.
  revert n. induction l as [|a l IH]; intros [|n]; cbn; auto.
Qed.

Lemma requests_app (t1 t2 : list call) :
  requests (t1 ++ t2) = (requests t1 ++ requests t2)%list.
Proof. unfold requests. apply flat_map_app. Qed.

Lemma same_config_enabled (c c' : tPGconnContainer) :
  same_config c c' ->
  pooling_enabled c' = pooling_enabled c /\ configuration c' = configuration c.
Proof.
  unfold same_config, configuration, pooling_enabled, set_PGconnPool.
  intros H. split; [|now symmetry].
  injection H as _ _ _ _ H _ _ _ _. now rewrite H.
Qed.

(** Containers that agree in configuration ask for the same lists. *)
Lemma same_config_requests (l l' : list tPGconnContainer) :
  Forall2 same_config l l' ->
  map configuration (filter pooling_enabled l')
  = map configuration (filter pooling_enabled l).
Proof.
  induction 1 as [|c c' l l' Hc _ IH]; cbn; [reflexivity|].
  destruct (same_config_enabled c c' Hc) as [-> Hcfg].
  destruct (pooling_enabled c); cbn; congruence.
Qed.

Lemma kept_refl (c : tPGconnContainer) : kept c c.
Proof. split; [reflexivity | auto]. Qed.

Lemma kept_trans (c1 c2 c3 : tPGconnContainer) :
  kept c1 c2 -> kept c2 c3 -> kept c1 c3.
Proof.
  intros [S12 D12] [S23 D23]. split.
  - unfold same_config in *. congruence.
  - intros Hlt. rewrite <- (D12 Hlt). apply D23.
    rewrite (D12 Hlt). exact Hlt.
Qed.

Lemma store_kept_refl (store : list tPGconnServerConfig) :
  store_kept store store.
Proof.
  apply Forall2_same. intros s. apply Forall2_same. exact kept_refl.
Qed.

Lemma store_kept_trans (s1 s2 s3 : list tPGconnServerConfig) :
  store_kept s1 s2 -> store_kept s2 s3 -> store_kept s1 s3.
Proof.
  apply Forall2_chain. intros x y z.
  apply Forall2_chain. exact kept_trans.
Qed.

(** Stores that agree container by container are walked alike. *)
Lemma walked_kept (store store' : list tPGconnServerConfig)
    (hosts : list nat) :
  store_kept store store' ->
  map configuration (filter pooling_enabled (walked store' hosts))
  = map configuration (filter pooling_enabled (walked store hosts)).
Proof.
  intros Hstore. unfold walked.
  induction hosts as [|a hosts IH]; cbn; [reflexivity|].
  rewrite !filter_app, !map_app, IH. f_equal.
  unfold containers_at. clear IH. revert a.
  induction Hstore as [|s s' store store' Hs _ IH]; intros [|a]; cbn; auto.
  apply same_config_requests.
  eapply Forall2_impl; [|exact Hs]. now intros c c' [H _].
Qed.

Section ChildInitProperties.
Context {L : Libs} {R : ResList L}.
Variable v_pool : option apr_pool_t.

Lemma PGconn_childInit_container_setup (c : tPGconnContainer) (m : machine) :
  exists c' m',
    PGconn_childInit_container v_pool c m = Some (c', m') /\
    engine_setup v_pool m c c' m'.
Proof.
  unfold PGconn_childInit_container.
  destruct (m_poolMaxHard c >=? 1) eqn:Hhard.
  - assert (1 <= m_poolMaxHard c) as Hle
        by (rewrite Z.geb_leb in Hhard; now apply Z.leb_le).
    run_code.
    destruct (create_for v_pool c (ext m)) as [[st rl] w] eqn:Hc.
    unfold create_for, constructor_for, destructor_for in Hc.
    rewrite Hc.
    destruct (st =? APR_SUCCESS) eqn:Hst; cbn; rewrite <- app_assoc; cbn;
      do 2 eexists; (split; [reflexivity|]).
    + apply (setup_created v_pool m c st rl w Hle Hc).
      now apply Z.eqb_eq.
    + apply (setup_failed v_pool m c st rl w Hle Hc).
      now apply Z.eqb_neq.
  - exists c, m. split; [reflexivity|].
    apply setup_disabled.
    rewrite Z.geb_leb in Hhard. apply Z.leb_gt in Hhard. lia.
Qed.

Lemma PGconn_childInit_containers_set_up (l : list tPGconnContainer) :
  forall m, exists l' m',
    PGconn_childInit_containers v_pool l m = Some (l', m') /\
    engines_set_up v_pool m l l' m'.
Proof.
  induction l as [|c l IH]; intros m; cbn.
  - exists [], m. split; [reflexivity | constructor].
  - destruct (PGconn_childInit_container_setup c m) as (c' & m1 & Hc & Hs).
    destruct (IH m1) as (l' & m2 & Hl & Hss).
    exists (c' :: l'), m2. split.
    + unfold bind. rewrite Hc, Hl. reflexivity.
    + econstructor; eauto.
Qed.

Lemma engine_setup_kept (m m' : machine) (c c' : tPGconnContainer) :
  engine_setup v_pool m c c' m' -> kept c c'.
Proof.
  destruct 1; split; try reflexivity; intros; auto; lia.
Qed.

Lemma engines_set_up_kept (m m' : machine)
    (l l' : list tPGconnContainer) :
  engines_set_up v_pool m l l' m' -> Forall2 kept l l'.
Proof.
  induction 1; constructor; auto.
  eapply engine_setup_kept; eauto.
Qed.

(** The requests that reach the trace are those of the containers with
    [m_poolMaxHard >= 1], in order. *)
Lemma engines_set_up_requests (m m' : machine)
    (l l' : list tPGconnContainer) :
  engines_set_up v_pool m l l' m' ->
  requests (calls m')
  = (requests (calls m)
       ++ map (create_call v_pool)
              (map configuration (filter pooling_enabled l)))%list.
Proof.
  induction 1 as [m | m m1 m2 c c' l l' Hc Hl IH]; cbn.
  - now rewrite app_nil_r.
  - rewrite IH. unfold pooling_enabled at 2.
    destruct Hc as [m c Hlt | m c st rl w Hle _ _ | m c st rl w Hle _ _]; cbn.
    + apply Z.leb_gt in Hlt. now rewrite Hlt.
    + apply Z.leb_le in Hle. rewrite Hle, requests_app. cbn.
      now rewrite <- app_assoc.
    + apply Z.leb_le in Hle. rewrite Hle, requests_app. cbn.
      now rewrite <- app_assoc.
Qed.

Lemma PGconn_childInit_walks (hosts : list nat) :
  forall (store : list tPGconnServerConfig) (m : machine),
    Forall (fun a => (a < List.length store)%nat) hosts ->
    exists store' m',
      PGconn_childInit v_pool (map Some hosts) store m = Some (store', m') /\
      hosts_set_up v_pool m store hosts store' m'.
Proof.
  induction hosts as [|a hosts IH]; intros store m Hvalid;
    cbn [PGconn_childInit map].
  - exists store, m. split; [reflexivity | constructor].
  - inversion Hvalid as [|? ? Ha Hrest]; subst.
    destruct (nth_error store a) as [cfg|] eqn:Hcfg;
      [|apply nth_error_None in Hcfg; lia].
    destruct (PGconn_childInit_containers_set_up
                (m_first_PGconnContainer cfg) m) as (l' & m1 & Hl & Hs).
    destruct (IH (update_nth a (mkServerConfig l') store) m1)
      as (store' & m2 & Hrun & Hwalk).
    { now rewrite length_update_nth. }
    exists store', m2. split.
    + unfold bind. rewrite Hl. exact Hrun.
    + econstructor; eauto.
Qed.

Lemma hosts_set_up_summary (m m' : machine)
    (store store' : list tPGconnServerConfig) (hosts : list nat) :
  hosts_set_up v_pool m store hosts store' m' ->
  store_kept store store' /\
  requests (calls m')
  = (requests (calls m)
       ++ map (create_call v_pool)
              (map configuration
                   (filter pooling_enabled (walked store hosts))))%list.
Proof.
  induction 1 as [m store | m m1 m2 store store' a cfg l' next Hcfg Hl _ IH].
  - split; [apply store_kept_refl|].
    cbn. now rewrite app_nil_r.
  - destruct IH as [Hrest Hcalls].
    assert (store_kept store (update_nth a (mkServerConfig l') store))
      as Hstep.
    { apply (Forall2_update_nth _ store a cfg (mkServerConfig l')); auto.
      - intros s. apply Forall2_same. exact kept_refl.
      - cbn. eapply engines_set_up_kept; eauto. }
    split; [eapply store_kept_trans; eauto|].
    rewrite Hcalls, (engines_set_up_requests _ _ _ _ Hl).
    rewrite (walked_kept store _ next Hstep).
    unfold walked at 2. cbn [flat_map]. fold (walked store next).
    unfold containers_at at 1. rewrite Hcfg.
    now rewrite filter_app, !map_app, app_assoc.
Qed.

(** C7 (as the code has it): process start returns when every host points
    to a configuration of the store.  It walks the hosts in order and, for
    each, the containers of its configuration: a resource list is
    requested for exactly the containers walked that have
    [m_poolMaxHard >= 1], once at every walk, so again for each further
    host that points to the same configuration.  A request that reports
    APR_SUCCESS leaves the container holding the new list, one that fails
    leaves it as it was, with the failure logged.  In the end every
    container has its configuration as before, and one with
    [m_poolMaxHard < 1] is exactly as it was.  On a container without a
    resource list, acquire with an empty cell returns
    PGCONN_UNAVAILABLE. *)
Theorem PGconn_childInit_engines
    (store : list tPGconnServerConfig) (hosts : list nat) (m : machine) :
  (Forall (fun a => (a < List.length store)%nat) hosts ->
   exists store' m',
     PGconn_childInit v_pool (map Some hosts) store m = Some (store', m') /\
     hosts_set_up v_pool m store hosts store' m' /\
     requests (calls m')
     = (requests (calls m)
          ++ map (create_call v_pool)
                 (map configuration
                      (filter pooling_enabled (walked store hosts))))%list /\
     store_kept store store') /\
  (forall (c : tPGconnContainer) (m0 : machine),
      m_PGconnPool c = None ->
      acquirePGconn (Some c) (Some None) m0
      = Some ((PGCONN_UNAVAILABLE, Some None), m0)).
Proof.
  split.
  - intros Hvalid.
    destruct (PGconn_childInit_walks hosts store m Hvalid)
      as (store' & m' & Hrun & Hwalk).
    destruct (hosts_set_up_summary _ _ _ _ _ Hwalk) as [Hsame Hcalls].
    exists store', m'. repeat split; auto.
  - intros c m0 E. unfold acquirePGconn. now rewrite E.
Qed.
End ChildInitProperties.

Module ChildInitRuns.
Import Scenario.

(** With the backend up, [db1] gets its list and [off] does not; acquire on
    [off] is unavailable. *)
Lemma PGconn_childInit_engines_witness :
  result (child_init v_pool [Some 0%nat] [mkServerConfig [db1; off]]
                     (start (boot true true)))
  = Some [mkServerConfig [db1_ready; off]] /\
  result (acquire (Some off) (Some None) (start (boot true true)))
  = Some (PGCONN_UNAVAILABLE, Some None).
Proof.
  destruct (PGconn_childInit_engines (L := Sim.libs) (R := Sim.reslist)
              v_pool [mkServerConfig [db1; off]] [0%nat]
              (start (boot true true)))
    as [Hstart Hacq].
  destruct (Hstart ltac:(repeat constructor)) as (store' & m' & Hrun & _).
  split; [reflexivity|].
  unfold acquire. rewrite (Hacq off (start (boot true true)) eq_refl).
  reflexivity.
Defined.

(** C7 as stated fails.  [eager] has [PoolMaxHard 1], but with the
    backend away its first connection cannot be opened, the creation of
    its list fails and it is left without an engine.  A configuration
    that two hosts point to gets two lists for its one container, not one.
    And acquire on the engine-less [off] with a cell that already holds a
    connection returns PGCONN_ALREADYACQUIRED, not PGCONN_UNAVAILABLE. *)
Lemma PGconn_childInit_engine_not_guaranteed :
  result (child_init v_pool [Some 0%nat] [mkServerConfig [eager]]
                     (start (boot false true)))
  = Some [mkServerConfig [eager]] /\
  m_poolMaxHard eager = 1 /\ m_PGconnPool eager = None /\
  option_map (filter is_create_call)
    (trace (child_init v_pool shared_hosts [mkServerConfig [db1]]
                       (start (boot true true))))
  = Some [create_call v_pool db1; create_call v_pool db1_ready] /\
  result (acquire (Some off) (Some (Some 5%nat)) (start (boot true true)))
  = Some (PGCONN_ALREADYACQUIRED, Some (Some 5%nat)).
Proof. repeat split. Qed.

Example child_init_trace :
  trace (child_init v_pool [Some 0%nat; Some 1%nat]
                    [mkServerConfig [off; traced]; mkServerConfig [db1]]
                    (start (boot true true)))
  = Some [create_call v_pool traced;
          Call_apr_pool_cleanup_register v_pool
            (Cleanup_apr_reslist_destroy 0%nat);
          create_call v_pool db1;
          Call_apr_pool_cleanup_register v_pool
            (Cleanup_apr_reslist_destroy 1%nat)].
Proof. reflexivity. Qed.

(** A configuration that two hosts point to is walked twice: two lists are
    created for [db1], the container ends holding the second, and both
    have their destruction registered. *)
Example child_init_shared_configuration :
  result (child_init v_pool shared_hosts [mkServerConfig [db1]]
                     (start (boot true true)))
  = Some [mkServerConfig [set_PGconnPool db1 (Some 1%nat)]] /\
  trace (child_init v_pool shared_hosts [mkServerConfig [db1]]
                    (start (boot true true)))
  = Some [create_call v_pool db1;
          Call_apr_pool_cleanup_register v_pool
            (Cleanup_apr_reslist_destroy 0%nat);
          create_call v_pool db1_ready;
          Call_apr_pool_cleanup_register v_pool
            (Cleanup_apr_reslist_destroy 1%nat)].
Proof. split; reflexivity. Qed.

(** A host without module configuration is dereferenced all the same. *)
Example child_init_null_configuration :
  child_init v_pool [Some 0%nat; None] [mkServerConfig [db1]]
             (start (boot true true)) = None.
Proof. reflexivity. Qed.

End ChildInitRuns.

(** ** Availability *)

Section MeasureProperties.
Context {L : Libs} {R : ResList L}.

Lemma measurePGconnAvailability_null (m : machine) :
  measurePGconnAvailability None m = Some (0, m).
Proof. reflexivity. Qed.

(** Without a resource list the count is asked of a NULL handle: the
    call has no outcome. *)
Lemma measurePGconnAvailability_no_engine (c : tPGconnContainer)
    (m : machine) :
  m_PGconnPool c = None -> measurePGconnAvailability (Some c) m = None.
Proof.
  intros E. unfold measurePGconnAvailability. now rewrite E.
Qed.

(** With a resource list, a hard maximum of at least 1 and a count within
    it, the result is the percentage of the hard maximum that is not
    acquired, rounded down, as long as the product fits an [int]. *)
Lemma measurePGconnAvailability_formula (c : tPGconnContainer)
    (r : apr_reslist_t) (m : machine) :
  let n := lib_apr_reslist_acquired_count r (ext m) in
  let hard := m_poolMaxHard c in
  m_PGconnPool c = Some r ->
  1 <= hard < 2 ^ 31 ->
  0 <= n <= hard ->
  (hard - n) * 100 < 2 ^ 31 ->
  measurePGconnAvailability (Some c) m
  = Some ((hard - n) * 100 / hard, m).
Proof.
  intros n hard E Hhard Hn Hfit.
  unfold measurePGconnAvailability. rewrite E. run_code.
  fold n. fold hard.
  assert (uint32 hard = hard) as ->
      by (unfold uint32; apply Z.mod_small; lia).
  assert (uint32 (hard - n) = hard - n) as ->
      by (unfold uint32; apply Z.mod_small; lia).
  assert (uint32 ((hard - n) * 100) = (hard - n) * 100) as ->
      by (unfold uint32; apply Z.mod_small; lia).
  destruct (hard =? 0) eqn:H0; [apply Z.eqb_eq in H0; lia|].
  assert (0 <= (hard - n) * 100 / hard <= (hard - n) * 100) as Hq.
  { split.
    - apply Z.div_pos; lia.
    - apply Z.div_le_upper_bound; nia. }
  unfold int32. rewrite Z.mod_small by lia.
  do 2 f_equal. lia.
Qed.

Lemma measurePGconnAvailability_fresh (c : tPGconnContainer)
    (r : apr_reslist_t) (m : machine) :
  m_PGconnPool c = Some r ->
  1 <= m_poolMaxHard c ->
  m_poolMaxHard c * 100 < 2 ^ 31 ->
  lib_apr_reslist_acquired_count r (ext m) = 0 ->
  measurePGconnAvailability (Some c) m = Some (100, m).
Proof.
  intros E Hhard Hfit Hn.
  rewrite (measurePGconnAvailability_formula c r m E); rewrite ?Hn; try lia.
  rewrite Z.sub_0_r, Z.mul_comm, Z.div_mul by lia. reflexivity.
Qed.

Lemma measurePGconnAvailability_full (c : tPGconnContainer)
    (r : apr_reslist_t) (m : machine) :
  m_PGconnPool c = Some r ->
  1 <= m_poolMaxHard c < 2 ^ 31 ->
  lib_apr_reslist_acquired_count r (ext m) = m_poolMaxHard c ->
  measurePGconnAvailability (Some c) m = Some (0, m).
Proof.
  intros E Hhard Hn.
  rewrite (measurePGconnAvailability_formula c r m E); rewrite ?Hn; try lia.
  rewrite Z.sub_diag. reflexivity.
Qed.

(** C3 at a pool that process start leaves without an engine
    ([PoolMaxHard 0]): the claim has the measure return 0 there; the
    code passes the NULL list to apr_reslist_acquired_count and then
    divides by [m_poolMaxHard = 0], so the call has no outcome at all. *)
Theorem measurePGconnAvailability_without_engine (m : machine) :
  m_PGconnPool Scenario.off = None /\
  m_poolMaxHard Scenario.off = 0 /\
  measurePGconnAvailability (Some Scenario.off) m = None /\
  measurePGconnAvailability (Some Scenario.off) m <> Some (0, m).
Proof.
  repeat split. discriminate.
Qed.
End MeasureProperties.

Module MeasureRuns.
Import Scenario.

Example measure_db1 :
  result (measure (Some db1_ready) (start healthy)) = Some 100 /\
  result (measure (Some db1_ready) (start exhausted)) = Some 0 /\
  result (measure (Some db2_ready) (start busy)) = Some 33 /\
  result (measure None (start busy)) = Some 0.
Proof. repeat split. Qed.

(** The engine of [db1] could not be created: no outcome either. *)
Example measure_failed_engine :
  measure (Some db1) (start (boot false true)) = None.
Proof. reflexivity. Qed.

(** Beyond 42949672 free connections the unsigned product wraps. *)
Example measure_wraps :
  let big := config "big" 0 0 50000000 None in
  result (measure (Some (set_PGconnPool big (Some 0%nat)))
                  (start (Sim.mkState true true 0 [] [list_of big 0 []] [])))
  = Some 14.
Proof. reflexivity. Qed.

End MeasureRuns.

(** ** Connection factory *)

Section FactoryProperties.
Context {L : Libs}.

(** C8 (as the code has it): either destructor, given a NULL connection,
    calls no library and leaves the world as it is, and reports
    APR_EGENERAL. *)
Theorem closePGconn_null
    (c : option tPGconnContainer) (pool : option apr_pool_t) (m : machine) :
  closePGconn None c pool m = Some (APR_EGENERAL, m) /\
  closePGconn_tracing None c pool m = Some (APR_EGENERAL, m).
Proof. split; reflexivity. Qed.

Lemma closePGconn_finishes
    (conn : PGconn) (c : option tPGconnContainer) (pool : option apr_pool_t)
    (m : machine) :
  closePGconn (Some conn) c pool m
  = Some (APR_SUCCESS,
          mkMachine (lib_PQfinish (Some conn) (ext m))
                    (calls m ++ [Call_PQfinish (Some conn)])) /\
  closePGconn_tracing (Some conn) c pool m
  = Some (APR_SUCCESS,
          mkMachine
            (lib_PQfinish (Some conn) (lib_PQuntrace (Some conn) (ext m)))
            (calls m ++ [Call_PQuntrace (Some conn);
                         Call_PQfinish (Some conn)])).
Proof.
  split; [reflexivity|].
  unfold closePGconn_tracing. run_code. now rewrite <- app_assoc.
Qed.

(** C9: the tracing constructor on a container with a trace directory.
    When the backend accepts the connection and the trace file cannot be
    opened, PQfinish is called on the connection just opened, as the
    last call before returning; the result is APR_EGENERAL and the
    caller's cell is NULL. *)
Theorem openPGconn_tracing_closes_on_trace_failure
    (cell : PGconnPtr) (c : tPGconnContainer) (dir : string)
    (pool : apr_pool_t) (m : machine) (conn : PGconn) (w1 w2 : world) :
  m_traceDir c = Some dir ->
  lib_PQconnectdb (m_connInfo c) (ext m) = (Some conn, w1) ->
  lib_PQstatus (Some conn) w1 = CONNECTION_OK ->
  let path :=
    dir ++ "/" ++ format_d (lib_getpid w1) ++ "_"
        ++ format_d (lib_PQbackendPID (Some conn) w1) ++ ".trc" in
  lib_fopen path "w" w1 = (None, w2) ->
  openPGconn_tracing (Some cell) (Some c) (Some pool) m
  = Some ((APR_EGENERAL, Some None),
          mkMachine (lib_PQfinish (Some conn) w2)
                    (calls m ++ [Call_PQconnectdb (m_connInfo c);
                                 Call_fopen path "w";
                                 Call_PQfinish (Some conn)])).
Proof.
  intros Hdir Hconn Hst path Hopen.
  unfold openPGconn_tracing. run_code.
  rewrite Hconn. cbn. rewrite Hst. cbn. rewrite Hdir. cbn.
  subst path. cbn in Hopen. rewrite Hopen. cbn.
  now rewrite <- !app_assoc.
Qed.
End FactoryProperties.

Module FactoryRuns.
Import Scenario.

(** C8 as stated fails: destroying a NULL connection is reported as an
    error by both destructors. *)
Lemma destroying_null_reports_an_error :
  result (closePGconn (L := Sim.libs) None None None (start (boot true true)))
  = Some APR_EGENERAL /\
  result (closePGconn_tracing (L := Sim.libs) None None None
            (start (boot true true)))
  = Some APR_EGENERAL /\
  APR_EGENERAL <> APR_SUCCESS.
Proof. repeat split. discriminate. Qed.

(** The backend is up and the trace directory cannot be written. *)
Lemma openPGconn_tracing_closes_on_trace_failure_witness :
  result (openPGconn_tracing (L := Sim.libs) (Some None) (Some traced) v_pool
            (start (boot true false)))
  = Some (APR_EGENERAL, Some None) /\
  trace (openPGconn_tracing (L := Sim.libs) (Some None) (Some traced) v_pool
           (start (boot true false)))
  = Some [Call_PQconnectdb "dbname=app";
          Call_fopen "/var/trace/1_100.trc" "w";
          Call_PQfinish (Some 0%nat)] /\
  option_map Sim.connections
    (final (openPGconn_tracing (L := Sim.libs) (Some None) (Some traced) v_pool
              (start (boot true false))))
  = Some [].
Proof.
  pose proof (openPGconn_tracing_closes_on_trace_failure (L := Sim.libs)
                None traced "/var/trace" 9%nat (start (boot true false)) 0%nat
                (Sim.mkState true false 1 [(0%nat, CONNECTION_OK)] [] [])
                (Sim.mkState true false 1 [(0%nat, CONNECTION_OK)] [] [])
                eq_refl eq_refl eq_refl eq_refl) as H.
  split; [|split].
  - exact (f_equal result H).
  - exact (f_equal trace H).
  - exact (f_equal (fun o => option_map Sim.connections
                               (final (L := Sim.libs) o)) H).
Defined.

Example open_traced :
  result (openPGconn_tracing (L := Sim.libs) (Some None) (Some traced) v_pool
            (start (boot true true)))
  = Some (APR_SUCCESS, Some (Some 0%nat)) /\
  trace (openPGconn_tracing (L := Sim.libs) (Some None) (Some traced) v_pool
           (start (boot true true)))
  = Some [Call_PQconnectdb "dbname=app";
          Call_fopen "/var/trace/1_100.trc" "w";
          Call_apr_pool_cleanup_register v_pool (Cleanup_fclose 1%nat);
          Call_PQtrace (Some 0%nat) 1%nat].
Proof. split; reflexivity. Qed.

End FactoryRuns.

(** ** Registration *)

Section ConfigurationProperties.
Context {C : ConfigLib}.

(** The duplicate check fires exactly when a stored name is, byte for
    byte, the raw argument of the directive. *)
Lemma find_end_true_iff (l : list tPGconnContainer) (v_args : string) :
  find_end l v_args = true <-> Exists (fun c => m_name c = v_args) l.
Proof.
  induction l as [|c l IH]; cbn.
  - split; [discriminate | intros H; inversion H].
  - destruct (strcmp (m_name c) v_args =? 0) eqn:E.
    + split; auto. intros _. constructor.
      apply strcmp_0_iff. now apply Z.eqb_eq.
    + rewrite IH. split; [now constructor 2|].
      intros H; inversion H; subst; auto.
      apply Z.eqb_neq in E. now rewrite strcmp_0_iff in E.
Qed.

Lemma length_substring_le (n : nat) (s : string) :
  (String.length (substring 0 n s) <= n)%nat.
Proof.
  revert s; induction n as [|n IH]; intros [|a s]; cbn; try lia.
  specialize (IH s). lia.
Qed.

(** The name stored for a directive is shorter than its argument, so it
    never compares equal to it. *)
Lemma new_container_name_differs (v_args : string) :
  v_args <> EmptyString -> m_name (new_container v_args) <> v_args.
Proof.
  intros Hne E. cbn in E. unfold apr_pstrndup, strlen in E.
  pose proof (length_substring_le
                (Z.to_nat (Z.of_nat (String.length v_args) - 1)) v_args)
    as Hlen.
  rewrite E in Hlen.
  destruct v_args as [|a s]; [congruence|]. cbn [String.length] in Hlen.
  lia.
Qed.

(** C2 at its own scenario: the container directive [<PGconn db1>]
    (argument ["db1>"]) given twice for the same server, with no
    directives inside.  The claim has the second registration fail with
    a duplicate-name error; the code compares the stored name ["db1"]
    with the raw argument ["db1>"], finds no match, and accepts it: the
    registry ends with two containers named ["db1"], of which lookup
    can only ever return the first. *)
Theorem duplicate_registration_is_accepted :
  let first :=
    PGconn_containerCommand
      (mkCmdParms (Some PGconn_serverConfig_create) [] false) "db1>" in
  let second :=
    PGconn_containerCommand (mkCmdParms (snd first) [] false) "db1>" in
  first = (None, Some (mkServerConfig [new_container "db1>"])) /\
  second = (None, Some (mkServerConfig [new_container "db1>";
                                        new_container "db1>"])) /\
  m_name (new_container "db1>") = "db1" /\
  fst second <> Some "Duplicate Connection Name".
Proof.
  repeat split. discriminate.
Qed.

(** Names that differ only in case are accepted as well, although lookup
    does not tell them apart. *)
Example registration_is_case_sensitive :
  let first :=
    PGconn_containerCommand
      (mkCmdParms (Some PGconn_serverConfig_create) [] false) "db1>" in
  let second :=
    PGconn_containerCommand (mkCmdParms (snd first) [] false) "DB1>" in
  fst second = None /\
  option_map (fun cfg => map m_name (m_first_PGconnContainer cfg))
             (snd second) = Some ["db1"; "DB1"] /\
  getPGconnContainerByName (snd second) (Some "DB1")
  = Some (new_container "db1>").
Proof. repeat split. Qed.

(** The check does fire when an earlier argument had one more [>]. *)
Example registration_duplicate_detected :
  let first :=
    PGconn_containerCommand
      (mkCmdParms (Some PGconn_serverConfig_create) [] false) "db1>>" in
  let second :=
    PGconn_containerCommand (mkCmdParms (snd first) [] false) "db1>" in
  fst first = None /\
  second = (Some "Duplicate Connection Name", snd first).
Proof. repeat split. Qed.

Example registration_argument_checks :
  let parms := mkCmdParms (Some PGconn_serverConfig_create) [] false in
  fst (PGconn_containerCommand parms ">") = Some "Missing Connection Name" /\
  fst (PGconn_containerCommand parms "db1")
  = Some ("Missing " ++ dquote ++ ">" ++ dquote) /\
  fst (PGconn_containerCommand (mkCmdParms None [] false) "db1>")
  = Some "ap_get_module_config() failed" /\
  PGconn_containerCommand
    (mkCmdParms (Some PGconn_serverConfig_create) [] true) "db1>"
  = (Some "Not enough memory", Some PGconn_serverConfig_create).
Proof. repeat split. Qed.

(** Directives inside the container: an unknown one is refused, a
    number with trailing text is refused after it has been stored. *)
Lemma unknown_directive (c : tPGconnContainer) (a : string) :
  parse_directives [mkDirective "PoolSize" a] c EmptyString
  = (Some "'PoolSize' not recognized", c).
Proof. reflexivity. Qed.

Lemma PoolMaxHard_directive (c : tPGconnContainer) (a : string) :
  parse_directives [mkDirective "poolmaxhard" a] c EmptyString
  = (if is_empty (snd (strtol a)) then None
     else Some "Invalid value specified for 'poolmaxhard'",
     set_poolMaxHard c (int32 (fst (strtol a)))).
Proof.
  cbn. destruct (strtol a) as [v e]. cbn. now destruct (is_empty e).
Qed.

(** The [PGconn] directive makes the container that lookup finds the
    default of the directory, and refuses a name that lookup does not
    find; with a module name it declines. *)
Lemma PGconn_command_default (cfg : option tPGconnServerConfig)
    (dir : tPGconnDirConfig) (name : option string) :
  PGconn_command cfg dir name None
  = match getPGconnContainerByName cfg name with
    | Some c => (None, mkDirConfig (Some c))
    | None => (Some "Invalid Connection Name", dir)
    end /\
  forall module, PGconn_command cfg dir name (Some module)
                 = (Some DECLINE_CMD, dir).
Proof. split; reflexivity. Qed.

(** A new container has no resource list, no trace directory, a hard
    maximum of 1 and everything else zero. *)
Lemma new_container_defaults (v_args : string) :
  let c := new_container v_args in
  m_PGconnPool c = None /\ m_connInfo c = EmptyString /\
  m_poolMin c = 0 /\ m_poolMaxSoft c = 0 /\ m_poolMaxHard c = 1 /\
  m_poolTTL c = 0 /\ m_traceDir c = None /\ m_catalogCache c = DISABLED.
Proof. repeat split. Qed.
End ConfigurationProperties.

(** * Further properties of the module *)

(** ** Lookup *)

Lemma eq_nocase_refl (a : string) : eq_nocase a a.
Proof. reflexivity. Qed.

Lemma strcasecmp_refl (a : string) : (strcasecmp a a =? 0) = true.
Proof. apply Z.eqb_eq, strcasecmp_0_iff, eq_nocase_refl. Qed.

(** Whether a name matches depends on the query only up to case. *)
Lemma strcasecmp_query (a n1 n2 : string) :
  eq_nocase n1 n2 ->
  (strcasecmp a n1 =? 0) = (strcasecmp a n2 =? 0).
Proof.
  intros E.
  destruct (strcasecmp a n1 =? 0) eqn:E1, (strcasecmp a n2 =? 0) eqn:E2;
    try reflexivity.
  - apply Z.eqb_eq, strcasecmp_0_iff in E1.
    apply strcasecmp_eqb_false in E2. exfalso; apply E2.
    unfold eq_nocase in *. congruence.
  - apply Z.eqb_eq, strcasecmp_0_iff in E2.
    apply strcasecmp_eqb_false in E1. exfalso; apply E1.
    unfold eq_nocase in *. congruence.
Qed.

Lemma getPGconnContainerByName_loop_query (l : list tPGconnContainer)
    (n1 n2 : string) :
  eq_nocase n1 n2 ->
  getPGconnContainerByName_loop l n1 = getPGconnContainerByName_loop l n2.
Proof.
  intros E. induction l as [|c l IH]; cbn; [reflexivity|].
  now rewrite (strcasecmp_query (m_name c) n1 n2 E), IH.
Qed.

(** Lookup in a registry that got one more container at its end: an
    earlier match wins, otherwise the new container is tried. *)
Lemma getPGconnContainerByName_loop_app (l : list tPGconnContainer)
    (c : tPGconnContainer) (name : string) :
  getPGconnContainerByName_loop (l ++ [c]) name
  = match getPGconnContainerByName_loop l name with
    | Some old => Some old
    | None => if strcasecmp (m_name c) name =? 0 then Some c else None
    end.
Proof.
  induction l as [|a l IH]; cbn; [reflexivity|].
  now destruct (strcasecmp (m_name a) name =? 0).
Qed.

(** X1: two queries that differ only in the case of their letters get the
    same answer from the same registry. *)
Theorem lookup_query_case_is_irrelevant
    (cfg : option tPGconnServerConfig) (n1 n2 : string) :
  eq_nocase n1 n2 ->
  getPGconnContainerByName cfg (Some n1)
  = getPGconnContainerByName cfg (Some n2).
Proof.
  intros E. destruct cfg as [cfg|]; [|reflexivity]. cbn.
  now apply getPGconnContainerByName_loop_query.
Qed.

Lemma lookup_query_case_is_irrelevant_witness :
  let cfg := Some (mkServerConfig [Scenario.db1; Scenario.db2]) in
  getPGconnContainerByName cfg (Some "DB2")
  = getPGconnContainerByName cfg (Some "db2") /\
  getPGconnContainerByName cfg (Some "db2") = Some Scenario.db2.
Proof.
  split; [|reflexivity].
  apply (lookup_query_case_is_irrelevant
           (Some (mkServerConfig [Scenario.db1; Scenario.db2])) "DB2" "db2").
  reflexivity.
Defined.

(** X2: a container that lookup returns is the one lookup returns for its
    own configured name: among containers with the same name up to case,
    only the first can ever be found. *)
Theorem lookup_of_found_name
    (cfg : option tPGconnServerConfig) (name : option string)
    (c : tPGconnContainer) :
  getPGconnContainerByName cfg name = Some c ->
  getPGconnContainerByName cfg (Some (m_name c)) = Some c.
Proof.
  destruct cfg as [cfg|], name as [name|]; try discriminate.
  intros H. rewrite <- H. cbn in *.
  apply getPGconnContainerByName_loop_query.
  destruct (getPGconnContainerByName_loop_found _ _ _ H)
    as (pre & post & _ & E & _).
  exact E.
Qed.

Lemma lookup_of_found_name_witness :
  let shadowed := Scenario.config "DB1" 0 0 1 None in
  let cfg := Some (mkServerConfig [Scenario.db1; shadowed]) in
  getPGconnContainerByName cfg (Some "Db1") = Some Scenario.db1 /\
  getPGconnContainerByName cfg (Some (m_name Scenario.db1))
  = Some Scenario.db1 /\
  getPGconnContainerByName cfg (Some (m_name shadowed)) = Some Scenario.db1.
Proof.
  split; [reflexivity|]. split; [|reflexivity].
  apply (lookup_of_found_name
           (Some (mkServerConfig [Scenario.db1;
                                  Scenario.config "DB1" 0 0 1 None]))
           (Some "Db1") Scenario.db1).
  reflexivity.
Defined.

(** ** The constructors and destructors as a pair *)

Section FactoryContract.
Context {L : Libs}.

(** X3: either constructor, called with a cell, a container and a pool,
    always returns, after calling PQconnectdb first.  It returns
    APR_SUCCESS exactly when it leaves a connection in the cell, and that
    connection is the one PQconnectdb gave, found CONNECTION_OK, and not
    finished.  Otherwise it returns APR_EGENERAL with the cell NULL, and if
    PQconnectdb gave a connection object at all, PQfinish on that object is
    the last call made: no failure path leaks it. *)
Theorem constructor_contract
    (con : apr_reslist_constructor) (cell : PGconnPtr)
    (c : tPGconnContainer) (pool : apr_pool_t) (m : machine) :
  let opened := lib_PQconnectdb (m_connInfo c) (ext m) in
  exists st out m' suffix,
    call_constructor con (Some cell) (Some c) (Some pool) m
    = Some ((st, Some out), m') /\
    calls m' = (calls m ++ Call_PQconnectdb (m_connInfo c) :: suffix)%list /\
    ((st = APR_SUCCESS /\
      (exists conn, out = Some conn /\ fst opened = Some conn /\
                    lib_PQstatus (Some conn) (snd opened) = CONNECTION_OK) /\
      forallb (fun e => negb (is_PQfinish e)) suffix = true)
     \/
     (st = APR_EGENERAL /\ out = None /\
      forall conn, fst opened = Some conn ->
                   exists pre, suffix = (pre ++ [Call_PQfinish (Some conn)])%list)).
Proof.
  intros opened. subst opened.
  destruct con; cbn [call_constructor];
    [unfold openPGconn | unfold openPGconn_tracing]; run_code;
    destruct (lib_PQconnectdb (m_connInfo c) (ext m)) as [[conn|] w1] eqn:Ho;
    cbn.
  - destruct (lib_PQstatus (Some conn) w1) eqn:Hs; cbn.
    + exists APR_SUCCESS, (Some conn), (mkMachine w1 (calls m ++ [Call_PQconnectdb (m_connInfo c)])), [].
      repeat split. left. repeat split. exists conn. auto.
    + do 4 eexists. split; [reflexivity|]. split.
      * cbn. rewrite <- !app_assoc. cbn. reflexivity.
      * right. repeat split. intros conn' [= <-].
        exists [Call_ap_log_error
                  ("PQconnectdb() error: " ++ lib_PQerrorMessage (Some conn) w1)].
        reflexivity.
  - exists APR_EGENERAL, None, (mkMachine w1 (calls m ++ [Call_PQconnectdb (m_connInfo c)])), [].
    repeat split. right. repeat split. intros conn [=].
  - destruct (lib_PQstatus (Some conn) w1) eqn:Hs; cbn.
    + match goal with
      | |- context [lib_fopen ?p ?md w1] =>
          destruct (lib_fopen p md w1) as [[f|] w2] eqn:Hf
      end; cbn.
      * do 4 eexists. split; [reflexivity|]. split.
        -- cbn. rewrite <- !app_assoc. cbn. reflexivity.
        -- left. repeat split. exists conn. auto.
      * do 4 eexists. split; [reflexivity|]. split.
        -- cbn. rewrite <- !app_assoc. cbn. reflexivity.
        -- right. repeat split. intros conn' [= <-].
           eexists [_]. reflexivity.
    + do 4 eexists. split; [reflexivity|]. split.
      * cbn. rewrite <- !app_assoc. cbn. reflexivity.
      * right. repeat split. intros conn' [= <-].
        eexists [_]. reflexivity.
  - exists APR_EGENERAL, None, (mkMachine w1 (calls m ++ [Call_PQconnectdb (m_connInfo c)])), [].
    repeat split. right. repeat split. intros conn [=].
Qed.

(** X4: what a constructor built, the destructor of the same pair takes
    apart.  If the constructor chosen for a container returns APR_SUCCESS,
    the cell holds a connection, and the destructor chosen for the same
    container, given that connection, returns APR_SUCCESS and ends with
    PQfinish on it, after PQuntrace when the pair is the tracing one. *)
Theorem constructor_then_destructor
    (cell : PGconnPtr) (c : tPGconnContainer) (pool : apr_pool_t)
    (m m1 : machine) (out : PGconnPtr) :
  call_constructor (constructor_for c) (Some cell) (Some c) (Some pool) m
  = Some ((APR_SUCCESS, Some out), m1) ->
  exists conn m2,
    out = Some conn /\
    call_destructor (destructor_for c) out (Some c) (Some pool) m1
    = Some (APR_SUCCESS, m2) /\
    calls m2
    = (calls m1
         ++ match m_traceDir c with
            | Some _ => [Call_PQuntrace (Some conn)]
            | None => []
            end
         ++ [Call_PQfinish (Some conn)])%list.
Proof.
  unfold constructor_for, destructor_for.
  destruct (m_traceDir c) as [dir|]; cbn [call_constructor call_destructor];
    [unfold openPGconn_tracing | unfold openPGconn]; run_code;
    destruct (lib_PQconnectdb (m_connInfo c) (ext m)) as [[conn|] w1];
    cbn; try discriminate;
    (destruct (lib_PQstatus (Some conn) w1); cbn; [|discriminate]).
  - match goal with
    | |- context [lib_fopen ?p ?md w1] =>
        destruct (lib_fopen p md w1) as [[f|] w2]
    end; cbn; [|discriminate].
    intros [= <- <-]. exists conn.
    match goal with
    | |- exists m2, _ /\ closePGconn_tracing _ _ _ ?mm = _ /\ _ =>
        destruct (closePGconn_finishes conn (Some c) (Some pool) mm)
          as [_ Hclose]
    end.
    eexists. split; [reflexivity|]. split; [exact Hclose | reflexivity].
  - intros [= <- <-]. exists conn.
    match goal with
    | |- exists m2, _ /\ closePGconn _ _ _ ?mm = _ /\ _ =>
        destruct (closePGconn_finishes conn (Some c) (Some pool) mm)
          as [Hclose _]
    end.
    eexists. split; [reflexivity|]. split; [exact Hclose | reflexivity].
Qed.
End FactoryContract.

Module FactoryContractRuns.
Import Scenario.

(** The backend refuses the connection: the error is logged and the
    connection object finished. *)
Lemma constructor_contract_witness :
  result (openPGconn (L := Sim.libs) (Some None) (Some db1) v_pool
            (start (boot false true)))
  = Some (APR_EGENERAL, Some None) /\
  trace (openPGconn (L := Sim.libs) (Some None) (Some db1) v_pool
           (start (boot false true)))
  = Some [Call_PQconnectdb "dbname=app";
          Call_ap_log_error "PQconnectdb() error: could not connect to server";
          Call_PQfinish (Some 0%nat)].
Proof.
  destruct (constructor_contract (L := Sim.libs) Fn_openPGconn None db1
              9%nat (start (boot false true)))
    as (st & out & m' & suffix & Hrun & Hcalls & _).
  cbn [call_constructor] in Hrun.
  split; reflexivity.
Defined.

(** A traced connection is opened and closed again. *)
Lemma constructor_then_destructor_witness :
  exists m1 m2,
    openPGconn_tracing (L := Sim.libs) (Some None) (Some traced) v_pool
      (start (boot true true))
    = Some ((APR_SUCCESS, Some (Some 0%nat)), m1) /\
    closePGconn_tracing (L := Sim.libs) (Some 0%nat) (Some traced) v_pool m1
    = Some (APR_SUCCESS, m2) /\
    skipn 4 (calls m2)
    = [Call_PQuntrace (Some 0%nat); Call_PQfinish (Some 0%nat)] /\
    Sim.connections (ext m2) = [].
Proof.
  eexists.
  destruct (constructor_then_destructor (L := Sim.libs) None traced 9%nat
              (start (boot true true)) _ (Some 0%nat) eq_refl)
    as (conn & m2 & _ & Hclose & _).
  eexists. split; [reflexivity|]. repeat split.
Defined.

End FactoryContractRuns.

(** ** The facade as its callers see it *)

Section FacadeContract.
Context {L : Libs} {R : ResList L}.


(** X6: whenever acquire returns PGCONN_ACQUIRED, the cell was empty on
    entry, the container has a resource list, and the connection now in
    the cell answers CONNECTION_OK to PQstatus in the state in which
    acquire returns. *)
Theorem acquired_connection_is_ok
    (c : option tPGconnContainer) (slot slot' : PGconnSlot)
    (m m' : machine) :
  acquirePGconn c slot m = Some ((PGCONN_ACQUIRED, slot'), m') ->
  slot = Some None /\
  (exists cc r, c = Some cc /\ m_PGconnPool cc = Some r) /\
  exists conn,
    slot' = Some conn /\ lib_PQstatus conn (ext m') = CONNECTION_OK.
Proof.
  destruct c as [cc|]; [|discriminate].
  destruct slot as [[p|]|]; try discriminate.
  unfold acquirePGconn.
  destruct (m_PGconnPool cc) as [r|] eqn:E; [|discriminate].
  run_code.
  destruct (lib_apr_reslist_acquire r (ext m)) as [[[st conn] w1]|];
    [|discriminate].
  cbn. destruct (st =? APR_SUCCESS); cbn; [|discriminate].
  destruct (lib_PQstatus conn w1) eqn:Hs1; cbn.
  - intros [= <- <-]. repeat split; eauto.
  - destruct (lib_PQstatus conn (lib_PQreset conn w1)) eqn:Hs2; cbn.
    + intros [= <- <-]. repeat split; eauto.
    + destruct (lib_apr_reslist_release r conn (lib_PQreset conn w1)).
      discriminate.
Qed.

(** X7: whenever release returns, it is with PGCONN_RELEASED or with
    PGCONN_BAD.  PGCONN_RELEASED means the cell held a connection, that
    connection went to apr_reslist_release of the container's list in one
    call that reported APR_SUCCESS, and the cell is now NULL.  PGCONN_BAD
    always leaves the cell exactly as it was. *)
Theorem releasePGconn_result
    (c : option tPGconnContainer) (slot slot' : PGconnSlot)
    (st : ePGconnStatus) (m m' : machine) :
  releasePGconn c slot m = Some ((st, slot'), m') ->
  (st = PGCONN_RELEASED /\ slot' = Some None /\
   exists cc r conn,
     c = Some cc /\ m_PGconnPool cc = Some r /\ slot = Some (Some conn) /\
     fst (lib_apr_reslist_release r (Some conn) (ext m)) = APR_SUCCESS /\
     calls m' = (calls m ++ [Call_apr_reslist_release r (Some conn)])%list)
  \/
  (st = PGCONN_BAD /\ slot' = slot).
Proof.
  destruct c as [cc|]; [|intros [= <- <- <-]; now right].
  destruct slot as [[conn|]|]; try (intros [= <- <- <-]; now right).
  unfold releasePGconn.
  destruct (m_PGconnPool cc) as [r|] eqn:E; [|discriminate].
  run_code.
  destruct (lib_apr_reslist_release r (Some conn) (ext m)) as [s w] eqn:Hr.
  destruct (s =? APR_SUCCESS) eqn:Hs; cbn; intros [= <- <- <-].
  - left. repeat split. exists cc, r, conn. repeat split; auto.
    rewrite Hr. now apply Z.eqb_eq.
  - now right.
Qed.

(** X8: a connection obtained with PGCONN_ACQUIRED can be released: the
    release on the same container returns (the container has a list, so
    no NULL handle reaches APR) and hands exactly that connection to the
    list it was acquired from, in one call. *)
Theorem release_after_acquire
    (c : tPGconnContainer) (slot : PGconnSlot) (p : PGconn)
    (m m1 : machine) :
  acquirePGconn (Some c) slot m
  = Some ((PGCONN_ACQUIRED, Some (Some p)), m1) ->
  exists r st slot' m2,
    m_PGconnPool c = Some r /\
    In (Call_apr_reslist_acquire r) (calls m1) /\
    releasePGconn (Some c) (Some (Some p)) m1 = Some ((st, slot'), m2) /\
    calls m2 = (calls m1 ++ [Call_apr_reslist_release r (Some p)])%list.
Proof.
  destruct slot as [[q|]|]; try discriminate.
  unfold acquirePGconn, releasePGconn.
  destruct (m_PGconnPool c) as [r|] eqn:E; [|discriminate].
  run_code.
  destruct (lib_apr_reslist_acquire r (ext m)) as [[[st conn] w1]|];
    [|discriminate].
  cbn. destruct (st =? APR_SUCCESS); cbn; [|discriminate].
  assert (forall (w : world) (t : list call),
             In (Call_apr_reslist_acquire r) t ->
             exists r0 st0 slot0 m2,
               Some r = Some r0 /\
               In (Call_apr_reslist_acquire r0) t /\
               match
                 (let (a, w') := lib_apr_reslist_release r (Some p) w in
                  Some (a, mkMachine w'
                             (t ++ [Call_apr_reslist_release r (Some p)])))
               with
               | Some (a, m0) =>
                   (if a =? APR_SUCCESS
                    then fun m3 => Some ((PGCONN_RELEASED, Some None), m3)
                    else fun m3 => Some ((PGCONN_BAD, Some (Some p)), m3)) m0
               | None => None
               end = Some ((st0, slot0), m2) /\
               calls m2 = (t ++ [Call_apr_reslist_release r0 (Some p)])%list)
    as Hgoal.
  { intros w t Hin.
    destruct (lib_apr_reslist_release r (Some p) w) as [s w'].
    exists r. destruct (s =? APR_SUCCESS); do 3 eexists; repeat split; auto. }
  destruct (lib_PQstatus conn w1); cbn.
  - intros [= -> <-]. apply Hgoal. apply in_or_app. right. cbn. auto.
  - destruct (lib_PQstatus conn (lib_PQreset conn w1)); cbn.
    + intros [= -> <-]. apply Hgoal. apply in_or_app. left.
      apply in_or_app. right. cbn. auto.
    + destruct (lib_apr_reslist_release r conn (lib_PQreset conn w1)).
      discriminate.
Qed.

(** X9: with a resource list, a hard maximum between 1 and INT_MAX, an
    acquired count within it and a product that fits an [int], the measure
    is the percentage of the hard maximum not acquired, rounded down; it
    lies between 0 and 100 and the call changes nothing. *)
Theorem measurePGconnAvailability_percentage
    (c : tPGconnContainer) (r : apr_reslist_t) (m : machine) :
  let n := lib_apr_reslist_acquired_count r (ext m) in
  let hard := m_poolMaxHard c in
  m_PGconnPool c = Some r ->
  1 <= hard < 2 ^ 31 ->
  0 <= n <= hard ->
  (hard - n) * 100 < 2 ^ 31 ->
  exists v,
    measurePGconnAvailability (Some c) m = Some (v, m) /\
    v = (hard - n) * 100 / hard /\
    0 <= v <= 100.
Proof.
  intros n hard E Hhard Hn Hfit.
  exists ((hard - n) * 100 / hard). split; [|split; [reflexivity|]].
  - now apply measurePGconnAvailability_formula.
  - split.
    + apply Z.div_pos; lia.
    + apply Z.div_le_upper_bound; nia.
Qed.
End FacadeContract.

Module FacadeContractRuns.
Import Scenario.


Lemma acquired_connection_is_ok_witness :
  exists m',
    acquire (Some db1_ready) (Some None) (start recoverable)
    = Some ((PGCONN_ACQUIRED, Some (Some 0%nat)), m') /\
    lib_PQstatus (Libs := Sim.libs) (Some 0%nat) (ext m') = CONNECTION_OK.
Proof.
  eexists. split; [reflexivity|].
  destruct (acquired_connection_is_ok (L := Sim.libs) (R := Sim.reslist)
              (Some db1_ready) (Some None) (Some (Some 0%nat))
              (start recoverable) _ eq_refl)
    as (_ & _ & conn & Hconn & Hok).
  injection Hconn as <-. exact Hok.
Defined.

Lemma releasePGconn_result_witness :
  exists m',
    release (Some db1_ready) (Some (Some 0%nat)) (start exhausted)
    = Some ((PGCONN_RELEASED, Some None), m') /\
    Sim.idle_set 0%nat (ext m') = [Some 0%nat].
Proof.
  eexists. split; [reflexivity|].
  destruct (releasePGconn_result (L := Sim.libs) (R := Sim.reslist)
              (Some db1_ready) (Some (Some 0%nat)) (Some None)
              PGCONN_RELEASED (start exhausted) _ eq_refl)
    as [_ | [Hbad _]]; [reflexivity | discriminate].
Defined.

Lemma release_after_acquire_witness :
  exists m1 m2,
    acquire (Some db1_ready) (Some None) (start healthy)
    = Some ((PGCONN_ACQUIRED, Some (Some 0%nat)), m1) /\
    release (Some db1_ready) (Some (Some 0%nat)) m1
    = Some ((PGCONN_RELEASED, Some None), m2) /\
    calls m2 = [Call_apr_reslist_acquire 0%nat;
                Call_apr_reslist_release 0%nat (Some 0%nat)] /\
    Sim.idle_set 0%nat (ext m2) = [Some 0%nat].
Proof.
  eexists.
  destruct (release_after_acquire (L := Sim.libs) (R := Sim.reslist)
              db1_ready (Some None) 0%nat (start healthy) _ eq_refl)
    as (r & st & slot' & m2 & _ & _ & Hrel & _).
  eexists. split; [reflexivity|]. repeat split.
Defined.

(** One of three connections of [db2] is idle: a third is available. *)
Lemma measurePGconnAvailability_percentage_witness :
  result (measure (Some db2_ready) (start busy)) = Some 33.
Proof.
  destruct (measurePGconnAvailability_percentage
              (L := Sim.libs) (R := Sim.reslist) db2_ready 0%nat (start busy)
              eq_refl ltac:(cbn; lia) ltac:(cbn; lia) ltac:(cbn; lia))
    as (v & Hrun & Hv & _).
  unfold measure. rewrite Hrun, Hv. reflexivity.
Defined.

End FacadeContractRuns.

(** ** Process start and the registry *)

Lemma same_config_name (c c' : tPGconnContainer) :
  same_config c c' -> m_name c' = m_name c.
Proof.
  unfold same_config, set_PGconnPool. intros [= H]. congruence.
Qed.

Lemma same_config_set_PGconnPool (c : tPGconnContainer)
    (p : option apr_reslist_t) :
  same_config c (set_PGconnPool c p).
Proof. reflexivity. Qed.

(** Lookup in two registries whose containers agree in configuration, one
    by one, finds containers at the same place. *)
Lemma getPGconnContainerByName_loop_same_config
    (l l' : list tPGconnContainer) (name : string) :
  Forall2 same_config l l' ->
  match getPGconnContainerByName_loop l name,
        getPGconnContainerByName_loop l' name with
  | Some c, Some c' => same_config c c'
  | None, None => True
  | _, _ => False
  end.
Proof.
  induction 1 as [|c c' l l' Hc Hl IH]; cbn; [exact I|].
  rewrite (same_config_name c c' Hc).
  destruct (strcasecmp (m_name c) name =? 0); [exact Hc | exact IH].
Qed.

Section ChildInitContract.
Context {L : Libs} {R : ResList L}.
Variable v_pool : option apr_pool_t.

Lemma engine_setup_calls (m m' : machine) (c c' : tPGconnContainer) :
  engine_setup v_pool m c c' m' ->
  exists suffix, calls m' = (calls m ++ suffix)%list.
Proof.
  destruct 1; cbn; eauto. exists []. now rewrite app_nil_r.
Qed.

Lemma engines_set_up_calls (m m' : machine) (l l' : list tPGconnContainer) :
  engines_set_up v_pool m l l' m' ->
  exists suffix, calls m' = (calls m ++ suffix)%list.
Proof.
  induction 1 as [m | m m1 m2 c c' l l' Hc Hl IH].
  - exists []. now rewrite app_nil_r.
  - destruct (engine_setup_calls _ _ _ _ Hc) as (s1 & E1).
    destruct IH as (s2 & E2).
    exists (s1 ++ s2)%list. now rewrite E2, E1, app_assoc.
Qed.

Lemma hosts_set_up_calls (m m' : machine)
    (store store' : list tPGconnServerConfig) (hosts : list nat) :
  hosts_set_up v_pool m store hosts store' m' ->
  exists suffix, calls m' = (calls m ++ suffix)%list.
Proof.
  induction 1 as [m store | m m1 m2 store store' a cfg l' next _ Hl _ IH].
  - exists []. now rewrite app_nil_r.
  - destruct (engines_set_up_calls _ _ _ _ Hl) as (s1 & E1).
    destruct IH as (s2 & E2).
    exists (s1 ++ s2)%list. now rewrite E2, E1, app_assoc.
Qed.

(** A list that a container gained in a walk has its destruction
    registered with the pool. *)
Lemma engines_set_up_cleanup (m m' : machine) (l l' : list tPGconnContainer) :
  engines_set_up v_pool m l l' m' ->
  Forall2 (cleanup_registered v_pool (calls m')) l l'.
Proof.
  induction 1 as [m | m m1 m2 c c' l l' Hc Hl IH]; constructor; auto.
  destruct (engines_set_up_calls _ _ _ _ Hl) as (s2 & E2).
  destruct Hc as [| m c st rl w _ _ _ |]; intros Hne; try congruence.
  exists rl. split; [reflexivity|].
  rewrite E2. cbn. apply in_or_app. left. apply in_or_app. right.
  cbn. auto.
Qed.

(** Registrations stay in the trace: what holds of a first walk and of
    the walks after it holds of all of them together. *)
Lemma cleanup_registered_chain (t suffix : list call)
    (c1 c2 c3 : tPGconnContainer) :
  cleanup_registered v_pool t c1 c2 ->
  cleanup_registered v_pool (t ++ suffix) c2 c3 ->
  cleanup_registered v_pool (t ++ suffix) c1 c3.
Proof.
  unfold cleanup_registered. intros H12 H23 Hne.
  assert ({m_PGconnPool c3 = m_PGconnPool c2}
          + {m_PGconnPool c3 <> m_PGconnPool c2}) as [E | N]
      by (repeat decide equality).
  - rewrite E in *. destruct (H12 Hne) as (rl & Hrl & Hin).
    exists rl. split; [exact Hrl|]. apply in_or_app. now left.
  - exact (H23 N).
Qed.

Lemma hosts_set_up_cleanup (m m' : machine)
    (store store' : list tPGconnServerConfig) (hosts : list nat) :
  hosts_set_up v_pool m store hosts store' m' ->
  Forall2 (fun s s' =>
             Forall2 (cleanup_registered v_pool (calls m'))
                     (m_first_PGconnContainer s) (m_first_PGconnContainer s'))
          store store'.
Proof.
  induction 1 as [m store | m m1 m2 store store' a cfg l' next Hcfg Hl Hw IH].
  - apply Forall2_same. intros s. apply Forall2_same.
    intros c Hne. congruence.
  - destruct (hosts_set_up_calls _ _ _ _ _ Hw) as (suffix & E).
    rewrite E in *.
    eapply Forall2_chain; [| | exact IH].
    + intros s1 s2 s3 H12 H23.
      eapply Forall2_chain; [| exact H12 | exact H23].
      intros c1 c2 c3. apply cleanup_registered_chain.
    + apply (Forall2_update_nth _ store a cfg (mkServerConfig l')); auto.
      * intros s. apply Forall2_same. intros c Hne. congruence.
      * cbn. exact (engines_set_up_cleanup m m1 _ _ Hl).
Qed.

(** X10: process start changes nothing of the configuration.  With every
    host pointing to a configuration of the store, it returns, and the
    store has the same configurations with the same containers in the
    same order, each with its name, connection string, sizes,
    time-to-live, trace directory and catalog settings as before; only
    the resource list of a container can differ.  So a lookup by name
    answers after process start as it did before: it finds nothing where
    it found nothing, and otherwise the container at the same place, now
    possibly with its list. *)
Theorem PGconn_childInit_keeps_configuration
    (store : list tPGconnServerConfig) (hosts : list nat) (m : machine) :
  Forall (fun a => (a < List.length store)%nat) hosts ->
  exists store' m',
    PGconn_childInit v_pool (map Some hosts) store m = Some (store', m') /\
    Forall2 (fun s s' =>
               Forall2 same_config (m_first_PGconnContainer s)
                       (m_first_PGconnContainer s') /\
               forall name,
                 match getPGconnContainerByName (Some s) (Some name),
                       getPGconnContainerByName (Some s') (Some name) with
                 | Some c, Some c' => same_config c c'
                 | None, None => True
                 | _, _ => False
                 end)
            store store'.
Proof.
  intros Hvalid.
  destruct (PGconn_childInit_walks v_pool hosts store m Hvalid)
    as (store' & m' & Hrun & Hwalk).
  exists store', m'. split; [exact Hrun|].
  destruct (hosts_set_up_summary v_pool _ _ _ _ _ Hwalk) as [Hkept _].
  clear Hrun Hwalk Hvalid.
  induction Hkept as [|s s' ss ss' Hs Hss IH]; constructor; auto.
  assert (Forall2 same_config (m_first_PGconnContainer s)
                  (m_first_PGconnContainer s')) as Hsame
      by (eapply Forall2_impl; [|exact Hs]; now intros c c' [H _]).
  split; [exact Hsame|]. intros name. cbn.
  now apply getPGconnContainerByName_loop_same_config.
Qed.

(** X11: every resource list that process start stores in a container
    has its destruction (apr_reslist_destroy) registered as a cleanup of
    the pool the process was started with: a container whose list differs
    after process start holds a list for which that registration is in
    the trace. *)
Theorem PGconn_childInit_registers_cleanup
    (store : list tPGconnServerConfig) (hosts : list nat) (m : machine) :
  Forall (fun a => (a < List.length store)%nat) hosts ->
  exists store' m',
    PGconn_childInit v_pool (map Some hosts) store m = Some (store', m') /\
    Forall2
      (fun s s' =>
         Forall2
           (fun c c' =>
              m_PGconnPool c' <> m_PGconnPool c ->
              exists rl,
                m_PGconnPool c' = Some rl /\
                In (Call_apr_pool_cleanup_register v_pool
                      (Cleanup_apr_reslist_destroy rl)) (calls m'))
           (m_first_PGconnContainer s) (m_first_PGconnContainer s'))
      store store'.
Proof.
  intros Hvalid.
  destruct (PGconn_childInit_walks v_pool hosts store m Hvalid)
    as (store' & m' & Hrun & Hwalk).
  exists store', m'. split; [exact Hrun|].
  exact (hosts_set_up_cleanup _ _ _ _ _ Hwalk).
Qed.
End ChildInitContract.

Module ChildInitContractRuns.
Import Scenario.

(** Two virtual hosts: lookups answer as before, and the two lists created
    are registered for destruction. *)
Lemma PGconn_childInit_keeps_configuration_witness :
  exists store' m',
    child_init v_pool [Some 0%nat; Some 1%nat]
               [mkServerConfig [off; traced]; mkServerConfig [db1]]
               (start (boot true true))
    = Some (store', m') /\
    map (fun s => map m_name (m_first_PGconnContainer s)) store'
    = [["off"; "traced"]; ["db1"]] /\
    map (fun s => option_map m_PGconnPool
                    (getPGconnContainerByName (Some s) (Some "TRACED")))
        store'
    = [Some (Some 0%nat); None].
Proof.
  destruct (PGconn_childInit_keeps_configuration
              (L := Sim.libs) (R := Sim.reslist) v_pool
              [mkServerConfig [off; traced]; mkServerConfig [db1]]
              [0%nat; 1%nat] (start (boot true true))
              ltac:(repeat constructor))
    as (store' & m' & Hrun & _).
  exists [mkServerConfig [off; set_PGconnPool traced (Some 0%nat)];
          mkServerConfig [set_PGconnPool db1 (Some 1%nat)]].
  eexists. split; [reflexivity|]. split; reflexivity.
Defined.

(** Two hosts on one configuration: both lists created for [db1] are
    registered for destruction, the one the container ends with and the
    one it held in between. *)
Lemma PGconn_childInit_registers_cleanup_witness :
  exists store' m',
    child_init v_pool shared_hosts [mkServerConfig [db1]]
               (start (boot true true))
    = Some (store', m') /\
    map (fun s => map m_PGconnPool (m_first_PGconnContainer s)) store'
    = [[Some 1%nat]] /\
    filter (fun e => match e with
                     | Call_apr_pool_cleanup_register _ _ => true
                     | _ => false
                     end) (calls m')
    = [Call_apr_pool_cleanup_register v_pool
         (Cleanup_apr_reslist_destroy 0%nat);
       Call_apr_pool_cleanup_register v_pool
         (Cleanup_apr_reslist_destroy 1%nat)].
Proof.
  destruct (PGconn_childInit_registers_cleanup
              (L := Sim.libs) (R := Sim.reslist) v_pool
              [mkServerConfig [db1]] [0%nat; 0%nat]
              (start (boot true true)) ltac:(repeat constructor))
    as (store' & m' & Hrun & _).
  do 2 eexists. split; [reflexivity|]. split; reflexivity.
Defined.

End ChildInitContractRuns.

(** ** Registration and the directives of a container *)

Lemma strcasecmp_known (a k k' : string) :
  eq_nocase a k ->
  (strcasecmp a k' =? 0) = (strcasecmp k k' =? 0).
Proof.
  intros E.
  destruct (strcasecmp a k' =? 0) eqn:E1, (strcasecmp k k' =? 0) eqn:E2;
    try reflexivity.
  - apply Z.eqb_eq, strcasecmp_0_iff in E1.
    apply strcasecmp_eqb_false in E2. exfalso; apply E2.
    unfold eq_nocase in *. congruence.
  - apply Z.eqb_eq, strcasecmp_0_iff in E2.
    apply strcasecmp_eqb_false in E1. exfalso; apply E1.
    unfold eq_nocase in *. congruence.
Qed.

Lemma int32_range (z : Z) : - 2 ^ 31 <= int32 z < 2 ^ 31.
Proof.
  unfold int32.
  pose proof (Z.mod_pos_bound (z + 2 ^ 31) (2 ^ 32) ltac:(lia)). lia.
Qed.

Lemma int32_small (z : Z) : - 2 ^ 31 <= z < 2 ^ 31 -> int32 z = z.
Proof.
  intros H. unfold int32. rewrite Z.mod_small by lia. lia.
Qed.

Section RegistrationContract.
Context {C : ConfigLib}.

(** Splits the body of the directive loop into its branches. *)
Ltac branches :=
  repeat match goal with
    | |- context [strcasecmp ?a ?b =? 0] =>
        let E := fresh "E" in destruct (strcasecmp a b =? 0) eqn:E
    | |- context [ap_getword_conf ?a] =>
        destruct (ap_getword_conf a) as [? ?]
    | |- context [strtol ?a] => destruct (strtol a) as [? ?]
    | |- context [apr_strtoi64 ?a] => destruct (apr_strtoi64 a) as [? ?]
    | |- context [is_empty ?a] => destruct (is_empty a)
    | |- context [strlen ?a =? 0] => destruct (strlen a =? 0)
    end; cbn [negb].

(** The directives inside a container can set its connection string,
    sizes, time-to-live, trace directory and catalog mode, and nothing
    else: whatever the directives and however the loop ends, the name, the
    resource list and the catalog of the container are as before. *)
Lemma parse_directives_keeps_identity
    (ds : list ap_directive_t) (c : tPGconnContainer) (t_endPtr : string) :
  let c' := snd (parse_directives ds c t_endPtr) in
  m_name c' = m_name c /\
  m_PGconnPool c' = m_PGconnPool c /\
  m_catalog c' = m_catalog c.
Proof.
  revert c t_endPtr. induction ds as [|d ds IH]; intros c e; cbn.
  - auto.
  - branches; cbn;
      try (repeat split; reflexivity);
      match goal with
      | |- context [parse_directives ds ?c1 ?e1] =>
          destruct (IH c1 e1) as (H1 & H2 & H3);
          rewrite H1, H2, H3; repeat split; reflexivity
      end.
Qed.

(** X12: a container is accepted only if every directive in it has one of
    the seven known names, compared without regard to case. *)
Theorem accepted_directives_are_known
    (ds : list ap_directive_t) (c c' : tPGconnContainer) (t_endPtr : string) :
  parse_directives ds c t_endPtr = (None, c') ->
  Forall known_directive ds.
Proof.
  revert c t_endPtr. induction ds as [|d ds IH]; intros c e; cbn.
  - constructor.
  - assert (forall k, In k known_directives ->
                      (strcasecmp (directive d) k =? 0) = true ->
                      known_directive d) as Hknown.
    { intros k Hin Hk. apply Exists_exists. exists k. split; [exact Hin|].
      apply strcasecmp_0_iff. now apply Z.eqb_eq. }
    branches; intros H; try discriminate;
      (constructor; [| eapply IH; eassumption]);
      match goal with
      | E : (strcasecmp (directive d) ?k =? 0) = true |- _ =>
          apply (Hknown k); [unfold known_directives; cbn; tauto | exact E]
      end.
Qed.

(** X13: the hard maximum is stored as an [int].  A [PoolMaxHard]
    directive, under any spelling of its name, stores the [long] that
    [strtol] parsed converted to [int]: the value itself when it fits, its
    low 32 bits otherwise.  The directive is accepted when [strtol]
    consumed the whole argument, and refused as an invalid value, with
    the number already stored, when it did not. *)
Theorem PoolMaxHard_is_stored_as_int
    (d : ap_directive_t) (next : list ap_directive_t) (c : tPGconnContainer) :
  eq_nocase (directive d) "PoolMaxHard" ->
  let v := fst (strtol (args d)) in
  let stored := set_poolMaxHard c (int32 v) in
  parse_directives (d :: next) c EmptyString
  = (if is_empty (snd (strtol (args d)))
     then parse_directives next stored EmptyString
     else (Some ("Invalid value specified for '" ++ directive d ++ "'"),
           stored)) /\
  - 2 ^ 31 <= int32 v < 2 ^ 31 /\
  (int32 v - v) mod 2 ^ 32 = 0 /\
  (- 2 ^ 31 <= v < 2 ^ 31 -> int32 v = v).
Proof.
  intros Hname v stored. subst v stored.
  split; [|split; [apply int32_range|split]].
  - cbn.
    rewrite !(strcasecmp_known (directive d) "PoolMaxHard" _ Hname).
    cbn. destruct (strtol (args d)) as [v rest]. cbn.
    now destruct rest.
  - unfold int32.
    replace (((fst (strtol (args d)) + 2 ^ 31) mod 2 ^ 32 - 2 ^ 31)
             - fst (strtol (args d)))
      with ((fst (strtol (args d)) + 2 ^ 31) mod 2 ^ 32
            - (fst (strtol (args d)) + 2 ^ 31)) by lia.
    rewrite Zminus_mod, Z.mod_mod, Z.sub_diag by lia. reflexivity.
  - apply int32_small.
Qed.

(** X14: what a container directive does to the registry.  Either the
    registry is left exactly as it was and an error is returned, or one
    container is linked in at the end, behind the containers that were
    there, which stay as they were and in their order.  A directive that
    is accepted (returns NULL) always links one in.  Without mod_pgproc
    the new container carries the argument without its last byte as its
    name, and neither a resource list nor a catalog. *)
Theorem PGconn_containerCommand_registry
    (v_cmdParms : cmd_parms) (v_args : string) :
  let r := PGconn_containerCommand v_cmdParms v_args in
  (snd r = server_module_config v_cmdParms /\ fst r <> None)
  \/
  (exists cfg c,
      server_module_config v_cmdParms = Some cfg /\
      snd r = Some (mkServerConfig (m_first_PGconnContainer cfg ++ [c])) /\
      (getAllFunctionDetails = None ->
       m_name c = apr_pstrndup v_args (strlen v_args - 1) /\
       m_PGconnPool c = None /\ m_catalog c = None)).
Proof.
  unfold PGconn_containerCommand.
  destruct (Ascii.eqb (first_char v_args) ">"); [left; split; [reflexivity | discriminate]|].
  destruct (strrchr v_args ">"); [|left; split; [reflexivity | discriminate]].
  destruct (server_module_config v_cmdParms) as [cfg|];
    [|left; split; [reflexivity | discriminate]].
  destruct (find_end (m_first_PGconnContainer cfg) v_args);
    [left; split; [reflexivity | discriminate]|].
  destruct (pool_exhausted v_cmdParms);
    [left; split; [reflexivity | discriminate]|].
  pose proof (parse_directives_keeps_identity (first_child v_cmdParms)
                (new_container v_args) EmptyString) as Hid.
  destruct (parse_directives (first_child v_cmdParms) (new_container v_args)
              EmptyString) as [err c0].
  cbn in Hid.
  right. exists cfg.
  destruct err as [msg|].
  - exists c0. repeat split; apply Hid.
  - unfold cache_catalog.
    destruct (m_catalogCache c0); cbn.
    + exists c0. repeat split; apply Hid.
    + destruct getAllFunctionDetails as [f|].
      * destruct (f c0) as [e c1]. exists c1. repeat split; discriminate.
      * exists c0. repeat split; apply Hid.
    + destruct getAllFunctionDetails as [f|].
      * destruct (f c0) as [e c1]. exists c1. repeat split; discriminate.
      * exists c0. repeat split; apply Hid.
Qed.

(** X15: a name that has just been registered can be looked up and
    referred to.  After an accepted container directive, lookup by the name
    of the new container never fails: it returns the new container, unless
    an earlier container has that name up to case, which it returns
    instead; and a [PGconn] directive with that name is accepted. *)
Theorem registered_name_is_found
    (v_cmdParms : cmd_parms) (v_args : string)
    (cfg' : option tPGconnServerConfig) (dir : tPGconnDirConfig) :
  PGconn_containerCommand v_cmdParms v_args = (None, cfg') ->
  exists cfg c,
    server_module_config v_cmdParms = Some cfg /\
    cfg' = Some (mkServerConfig (m_first_PGconnContainer cfg ++ [c])) /\
    getPGconnContainerByName cfg' (Some (m_name c))
    = match getPGconnContainerByName (Some cfg) (Some (m_name c)) with
      | Some old => Some old
      | None => Some c
      end /\
    fst (PGconn_command cfg' dir (Some (m_name c)) None) = None.
Proof.
  unfold PGconn_containerCommand.
  destruct (Ascii.eqb (first_char v_args) ">"); [discriminate|].
  destruct (strrchr v_args ">"); [|discriminate].
  destruct (server_module_config v_cmdParms) as [cfg|]; [|discriminate].
  destruct (find_end (m_first_PGconnContainer cfg) v_args); [discriminate|].
  destruct (pool_exhausted v_cmdParms); [discriminate|].
  destruct (parse_directives (first_child v_cmdParms) (new_container v_args)
              EmptyString) as [[msg|] c0]; [discriminate|].
  destruct (cache_catalog c0) as [e c]. intros [= -> Hsnd].
  assert (Some cfg = Some cfg) as Hcfg by reflexivity.
  symmetry in Hsnd.
  exists cfg, c. split; [exact Hcfg|]. split; [exact Hsnd|].
  subst cfg'.
  assert (getPGconnContainerByName
            (Some (mkServerConfig (m_first_PGconnContainer cfg ++ [c])))
            (Some (m_name c))
          = match getPGconnContainerByName (Some cfg) (Some (m_name c)) with
            | Some old => Some old
            | None => Some c
            end) as Hlookup.
  { cbn. rewrite getPGconnContainerByName_loop_app, strcasecmp_refl.
    reflexivity. }
  split; [exact Hlookup|].
  unfold PGconn_command. rewrite Hlookup.
  now destruct (getPGconnContainerByName (Some cfg) (Some (m_name c))).
Qed.

(** X16: what the duplicate test compares.  For an argument that passes
    the two syntax checks, the directive is refused as a duplicate, the
    registry untouched, as soon as a stored name equals the whole
    argument byte for byte, closing [>] included.  A registry whose names
    were all stored from this same argument never has such a name, so the
    directive gets past the test and, memory permitting, adds its
    container. *)
Theorem duplicate_test_uses_raw_argument
    (v_cmdParms : cmd_parms) (cfg : tPGconnServerConfig) (v_args : string) :
  server_module_config v_cmdParms = Some cfg ->
  Ascii.eqb (first_char v_args) ">" = false ->
  strrchr v_args ">" <> None ->
  (Exists (fun c => m_name c = v_args) (m_first_PGconnContainer cfg) ->
   PGconn_containerCommand v_cmdParms v_args
   = (Some "Duplicate Connection Name", Some cfg)) /\
  (Forall (fun c => m_name c = m_name (new_container v_args))
          (m_first_PGconnContainer cfg) ->
   pool_exhausted v_cmdParms = false ->
   exists c,
     snd (PGconn_containerCommand v_cmdParms v_args)
     = Some (mkServerConfig (m_first_PGconnContainer cfg ++ [c]))).
Proof.
  intros Hcfg Hfirst Hclose.
  assert (v_args <> EmptyString) as Hne by (intros ->; now apply Hclose).
  split.
  - intros Hdup. apply find_end_true_iff in Hdup.
    unfold PGconn_containerCommand. rewrite Hfirst.
    destruct (strrchr v_args ">"); [|congruence].
    now rewrite Hcfg, Hdup.
  - intros Hall Hmem.
    assert (find_end (m_first_PGconnContainer cfg) v_args = false) as Hfree.
    { destruct (find_end (m_first_PGconnContainer cfg) v_args) eqn:E;
        [|reflexivity].
      apply find_end_true_iff, Exists_exists in E.
      destruct E as (c & Hin & Hc).
      rewrite Forall_forall in Hall. specialize (Hall c Hin).
      rewrite Hc in Hall.
      exfalso. now apply (new_container_name_differs v_args Hne). }
    unfold PGconn_containerCommand. rewrite Hfirst.
    destruct (strrchr v_args ">"); [|congruence].
    rewrite Hcfg, Hfree, Hmem.
    destruct (parse_directives (first_child v_cmdParms)
                (new_container v_args) EmptyString) as [[msg|] c0]; cbn.
    + now exists c0.
    + destruct (cache_catalog c0) as [e c1]. now exists c1.
Qed.
End RegistrationContract.

Module RegistrationRuns.

(** A container with every directive, under mixed spellings. *)
Example full_container_is_registered :
  Httpd.container (Some PGconn_serverConfig_create) Httpd.full_container
                  "db1>"
  = (None,
     Some (mkServerConfig
             [mkContainer None "db1" "dbname=app user=web" 1 2 3 60000000
                          (Some "/etc/httpd/trace") DISABLED None])).
Proof. reflexivity. Qed.

Lemma accepted_directives_are_known_witness :
  Forall known_directive Httpd.full_container.
Proof.
  apply (accepted_directives_are_known (C := Httpd.config_lib)
           Httpd.full_container (new_container "db1>")
           (mkContainer None "db1" "dbname=app user=web" 1 2 3 60000000
                        (Some "/etc/httpd/trace") DISABLED None)
           EmptyString).
  reflexivity.
Defined.

(** [PoolMaxHard 4294967296] is accepted and stores 0: the container gets
    no resource list at process start. *)
Lemma PoolMaxHard_is_stored_as_int_witness :
  Httpd.container (Some PGconn_serverConfig_create)
                  [mkDirective "POOLMAXHARD" "4294967296"] "big>"
  = (None,
     Some (mkServerConfig
             [mkContainer None "big" EmptyString 0 0 0 0 None DISABLED None])).
Proof.
  destruct (PoolMaxHard_is_stored_as_int (C := Httpd.config_lib)
              (mkDirective "POOLMAXHARD" "4294967296") []
              (new_container "big>") eq_refl)
    as (Hstep & _).
  unfold Httpd.container, PGconn_containerCommand. cbn -[parse_directives].
  rewrite Hstep. reflexivity.
Defined.

Lemma PGconn_containerCommand_registry_witness :
  exists c,
    snd (Httpd.container (Some (mkServerConfig [Scenario.db1]))
                         [mkDirective "PoolMin" "1x"] "db2>")
    = Some (mkServerConfig [Scenario.db1; c]) /\
    m_name c = "db2" /\ m_PGconnPool c = None /\ m_poolMin c = 1.
Proof.
  destruct (PGconn_containerCommand_registry (C := Httpd.config_lib)
              (mkCmdParms (Some (mkServerConfig [Scenario.db1]))
                          [mkDirective "PoolMin" "1x"] false) "db2>")
    as [(_ & _) | (cfg & c & _ & _ & Hnew)].
  - eexists. repeat split.
  - destruct (Hnew eq_refl) as (_ & _ & _).
    eexists. repeat split.
Defined.

Lemma registered_name_is_found_witness :
  let r := Httpd.container (Some (mkServerConfig [Scenario.db1])) [] "DB2>" in
  fst r = None /\
  option_map m_name (getPGconnContainerByName (snd r) (Some "db2"))
  = Some "DB2" /\
  fst (PGconn_command (snd r) PGconn_dirConfig_create (Some "db2") None)
  = None.
Proof.
  destruct (registered_name_is_found (C := Httpd.config_lib)
              (mkCmdParms (Some (mkServerConfig [Scenario.db1])) [] false)
              "DB2>" _ PGconn_dirConfig_create eq_refl)
    as (cfg & c & _).
  repeat split.
Defined.

Lemma duplicate_test_uses_raw_argument_witness :
  Httpd.container (Some (mkServerConfig [Scenario.config "db1>" 0 0 1 None]))
                  [] "db1>"
  = (Some "Duplicate Connection Name",
     Some (mkServerConfig [Scenario.config "db1>" 0 0 1 None])) /\
  option_map (fun cfg => map m_name (m_first_PGconnContainer cfg))
    (snd (Httpd.container (Some (mkServerConfig [new_container "db1>"]))
                          [] "db1>"))
  = Some ["db1"; "db1"].
Proof.
  destruct (duplicate_test_uses_raw_argument (C := Httpd.config_lib)
              (mkCmdParms
                 (Some (mkServerConfig [Scenario.config "db1>" 0 0 1 None]))
                 [] false)
              (mkServerConfig [Scenario.config "db1>" 0 0 1 None]) "db1>"
              eq_refl eq_refl ltac:(discriminate)) as [Hdup _].
  destruct (duplicate_test_uses_raw_argument (C := Httpd.config_lib)
              (mkCmdParms (Some (mkServerConfig [new_container "db1>"]))
                          [] false)
              (mkServerConfig [new_container "db1>"]) "db1>"
              eq_refl eq_refl ltac:(discriminate)) as [_ Hfree].
  split.
  - apply Hdup. constructor. reflexivity.
  - destruct (Hfree ltac:(repeat constructor) eq_refl) as (c & Hc).
    reflexivity.
Defined.

End RegistrationRuns.

(** ** The name of the trace file *)

Lemma format_d_inj (a b : Z) : format_d a = format_d b -> a = b.
Proof.
  unfold format_d. intros H.
  assert (forall z, NilZero.int_of_string (NilZero.string_of_int (Z.to_int z))
                    = Some (Z.to_int z)) as Hparse.
  { intros z. apply NilZero.isi; destruct z; cbn; try discriminate;
      intros [= E]; now apply Unsigned.to_uint_nonnil in E. }
  apply DecimalZ.to_int_inj.
  pose proof (Hparse a) as Ha. rewrite H, Hparse in Ha. congruence.
Qed.

Lemma append_inj_l (p x y : string) : p ++ x = p ++ y -> x = y.
Proof.
  induction p as [|a p IH]; cbn; [auto|]. intros [= H]. auto.
Qed.

Lemma length_append (x y : string) :
  String.length (x ++ y) = (String.length x + String.length y)%nat.
Proof. induction x as [|a x IH]; cbn; congruence. Qed.

Lemma append_inj_r (x y s : string) : x ++ s = y ++ s -> x = y.
Proof.
  revert y. induction x as [|a x IH]; intros [|b y] H; cbn in *.
  - reflexivity.
  - apply (f_equal String.length) in H. cbn in H.
    rewrite length_append in H. lia.
  - apply (f_equal String.length) in H. cbn in H.
    rewrite length_append in H. lia.
  - injection H as -> H. f_equal. auto.
Qed.

Section TraceFile.
Context {L : Libs}.

(** X18: the tracing constructor opens at most one file, and only after
    the backend accepted the connection: no file is opened for a
    connection that is refused or could not be allocated, and otherwise the
    one file opened is named after the trace directory, the process id and
    the backend process id of that connection.  Within one directory and
    one process, connections with different backend process ids get
    different files. *)
Theorem openPGconn_tracing_trace_file
    (cell : PGconnPtr) (c : tPGconnContainer) (dir : string)
    (pool : apr_pool_t) (m : machine) :
  m_traceDir c = Some dir ->
  let opened := lib_PQconnectdb (m_connInfo c) (ext m) in
  let w1 := snd opened in
  option_map fopen_paths
    (added m (openPGconn_tracing (Some cell) (Some c) (Some pool) m))
  = Some (match fst opened with
          | Some conn =>
              match lib_PQstatus (Some conn) w1 with
              | CONNECTION_OK =>
                  [trace_file_name dir (lib_getpid w1)
                     (lib_PQbackendPID (Some conn) w1)]
              | CONNECTION_BAD => []
              end
          | None => []
          end) /\
  forall pid b1 b2,
    trace_file_name dir pid b1 = trace_file_name dir pid b2 -> b1 = b2.
Proof.
  intros Hdir opened w1. subst opened w1. split.
  - unfold openPGconn_tracing, added. run_code.
    destruct (lib_PQconnectdb (m_connInfo c) (ext m)) as [[conn|] w1]; cbn.
    + destruct (lib_PQstatus (Some conn) w1); cbn.
      * rewrite Hdir. cbn.
        match goal with
        | |- context [lib_fopen ?p ?md w1] =>
            destruct (lib_fopen p md w1) as [[f|] w2]
        end; cbn; rewrite <- !app_assoc, skipn_app, skipn_all, Nat.sub_diag;
          reflexivity.
      * rewrite <- !app_assoc, skipn_app, skipn_all, Nat.sub_diag.
        reflexivity.
    + rewrite skipn_app, skipn_all, Nat.sub_diag. reflexivity.
  - unfold trace_file_name. intros pid b1 b2 H.
    apply append_inj_l, append_inj_l, append_inj_l, append_inj_l in H.
    apply append_inj_r in H. now apply format_d_inj.
Qed.
End TraceFile.

Module TraceFileRuns.
Import Scenario.

Lemma openPGconn_tracing_trace_file_witness :
  option_map fopen_paths
    (trace (openPGconn_tracing (L := Sim.libs) (Some None) (Some traced)
              v_pool (start (boot true true))))
  = Some ["/var/trace/1_100.trc"] /\
  option_map fopen_paths
    (trace (openPGconn_tracing (L := Sim.libs) (Some None) (Some traced)
              v_pool (start (boot false true))))
  = Some [].
Proof.
  destruct (openPGconn_tracing_trace_file (L := Sim.libs) None traced
              "/var/trace" 9%nat (start (boot true true)) eq_refl)
    as [Hfile _].
  split; [exact Hfile | reflexivity].
Defined.

End TraceFileRuns.
